(** * go-socket.io: the per-connection protocol core

    A shallow embedding of [nspsocket.go], of the handler file that goes
    with it (the [socketHandler] over an [*nspSocket]: [Join], [Leave],
    [LeaveAll], [onPacket], [onAck]) and of the socket file ([namespace],
    [loop]).

    Go's pointers to the shared connection become explicit state passing:
    every method takes the [socket] it works on and returns the updated
    one.  Calls that leave the package (the encoder, the decoder, the
    broadcast adaptor, the application's handlers) are appended to a log
    kept in the socket, so that statements can speak about what was called,
    in which order and how often.  Mutexes are not modelled: the embedding
    is sequential.  A handler is the function from its arguments to the
    values it returns; what it may do to the connection through the socket
    it is handed is left out. *)

From Stdlib Require Import ZArith Lia.
From stdpp Require Import gmap strings list fin_maps.

Local Open Scope Z_scope.

(** ** Values and packets *)

(** A Go [error] value. *)
Inductive error : Type :=
  | mkError (msg : string).

(** The dynamically typed values ([interface{}]) that travel in packets, go
    into handlers and come back from them.  A function value is a
    reference. *)
Inductive value : Type :=
  | VNil
  | VBool (b : bool)
  | VInt (n : Z)
  | VStr (s : string)
  | VError (e : error)
  | VFunc (f : nat).

(** Modelled from the spec: the packet and its type constants are declared
    with the codec, which is not among the sources. *)
Inductive packetType : Type :=
  | _CONNECT
  | _DISCONNECT
  | _EVENT
  | _ACK
  | _ERROR
  | _BINARY_EVENT
  | _BINARY_ACK.

(** [packet.Data] is an [interface{}]: [None] is Go's [nil]. *)
Record packet : Type := mkPacket {
  Type_ : packetType;
  Id : Z;
  NSP : string;
  Data : option (list value)
}.

(** A call either returns or dereferences a nil pointer. *)
Inductive outcome (A : Type) : Type :=
  | Returns (a : A)
  | Panics.
Arguments Returns {A} a.
Arguments Panics {A}.

(** ** The collaborators outside the package *)

(** Modelled from the spec: the caller (the reflection shim around an
    application function) is not among the sources.  [GetArgs] returns a
    fresh sequence of zero-valued slots, one per declared parameter, the
    socket not counted; [Call] invokes the function on the slots and returns
    its values in order. *)
Inductive kind : Type :=
  | KBool
  | KInt
  | KString
  | KInterface.

Definition zero (k : kind) : value :=
  match k with
  | KBool => VBool false
  | KInt => VInt 0
  | KString => VStr ""
  | KInterface => VNil
  end.

Record caller : Type := mkCaller {
  Args : list kind;
  Func : list value -> list value
}.

Definition GetArgs (c : caller) : list value := map zero (Args c).

(** Modelled from the spec: the packet decoder is not among the sources.
    [Message] is the event name read from the head of the payload;
    [DecodeData] fills the slots it is given by type-directed decoding, or
    fails; the sequence it leaves may be shorter or longer than the one it
    was given.  The Type, Id and NSP of the packet stay as [Decode] read
    them. *)
Record decoder : Type := mkDecoder {
  Message : string;
  DecodeData : list value -> error + list value
}.

(** What leaves the package, in order. *)
Inductive event : Type :=
  | EvEncode (p : packet)
  | EvMessage
  | EvDecodeData (slots : list value)
  | EvClose
  | EvCall (c : caller) (args : list value)
  | EvJoin (room : string)
  | EvLeave (room : string)
  | EvSend (exclude : bool) (room : string) (ev : string) (args : list value)
  | EvConnClose.

(** Modelled from the spec: the broadcast adaptor interface is not among the
    sources.  [Join(room, socket)], [Leave(room, socket)] and
    [Send(exclude, room, event, args...)] each answer an error or nil; the
    answer may depend on everything that happened on the connection before
    the call. *)
Record BroadcastAdaptor : Type := mkAdaptor {
  adaptor_Join : list event -> string -> option error;
  adaptor_Leave : list event -> string -> option error;
  adaptor_Send : list event -> string -> option error
}.

(** Modelled from the spec: the encoder is not among the sources, and the
    transport is a library.  [Encode] writes one packet to the transport and
    answers an error or nil, given what happened before. *)
Record Conn : Type := mkConn {
  Encode : list event -> packet -> option error
}.

(** ** The data model *)

Record baseHandler : Type := mkBaseHandler {
  events : gmap string caller;
  name : string;
  broadcast : BroadcastAdaptor
}.

Record socketHandler : Type := mkSocketHandler {
  base : baseHandler;
  rooms : gset string
}.

(** Modelled from the spec: the struct in [nspsocket.go] declares
    [connected] only, and [loop] reads and writes [disconnected]; the view
    carries both flags. *)
Record nspSocket : Type := mkNspSocket {
  handler : socketHandler;
  connected : bool;
  disconnected : bool
}.

(** The connection.  [nsps] maps a namespace name to its view; the name is
    also what stands for the pointer to the view. *)
Record socket : Type := mkSocket {
  nsps : gmap string nspSocket;
  conn : Conn;
  id : Z;
  acks : gmap Z caller;
  log : list event
}.

Definition set_rooms (r : gset string) (h : socketHandler) : socketHandler :=
  {| base := base h; rooms := r |}.

Definition set_handler (h : socketHandler) (n : nspSocket) : nspSocket :=
  {| handler := h; connected := connected n; disconnected := disconnected n |}.

Definition set_connected (b : bool) (n : nspSocket) : nspSocket :=
  {| handler := handler n; connected := b; disconnected := disconnected n |}.

Definition set_disconnected (b : bool) (n : nspSocket) : nspSocket :=
  {| handler := handler n; connected := connected n; disconnected := b |}.

Definition set_nsps (m : gmap string nspSocket) (s : socket) : socket :=
  {| nsps := m; conn := conn s; id := id s; acks := acks s; log := log s |}.

Definition set_id (i : Z) (s : socket) : socket :=
  {| nsps := nsps s; conn := conn s; id := i; acks := acks s; log := log s |}.

Definition set_acks (a : gmap Z caller) (s : socket) : socket :=
  {| nsps := nsps s; conn := conn s; id := id s; acks := a; log := log s |}.

Definition set_log (l : list event) (s : socket) : socket :=
  {| nsps := nsps s; conn := conn s; id := id s; acks := acks s; log := l |}.

Definition newBaseHandler (name : string) (broadcast : BroadcastAdaptor) : baseHandler :=
  {| events := ∅; name := name; broadcast := broadcast |}.

Definition newSocketHandler (base : baseHandler) : socketHandler :=
  {| base := base; rooms := ∅ |}.

Definition newNspSocket (base : baseHandler) : nspSocket :=
  {| handler := newSocketHandler base; connected := false; disconnected := false |}.

(** [newSocket], over the base handlers of the namespaces of the server. *)
Definition newSocket (conn : Conn) (root : gmap string baseHandler) : socket :=
  {| nsps := newNspSocket <$> root; conn := conn; id := 0; acks := ∅; log := [] |}.

(** Record one call that leaves the package. *)
Definition emit (e : event) (s : socket) : socket :=
  set_log (log s ++ [e]) s.

(** [newEncoder(conn).Encode(p)]. *)
Definition encode (p : packet) (s : socket) : socket * option error :=
  (emit (EvEncode p) s, Encode (conn s) (log s) p).

(** Go's [int] on a 64-bit target: two's complement wrap-around. *)
Definition int_bits : Z := 64.
Definition max_int : Z := 2 ^ (int_bits - 1) - 1.
Definition min_int : Z := - 2 ^ (int_bits - 1).
Definition wrap_int (z : Z) : Z :=
  (z + 2 ^ (int_bits - 1)) mod 2 ^ int_bits - 2 ^ (int_bits - 1).

(** ** nspsocket.go *)

Definition view_name (n : nspSocket) : string := name (base (handler n)).

Definition sendDisconnect (n : nspSocket) (s : socket) : socket * option error :=
  let packet := {| Type_ := _DISCONNECT; Id := -1; NSP := view_name n; Data := None |} in
  encode packet s.

Definition send (n : nspSocket) (args : list value) (s : socket) : socket * option error :=
  let packet := {| Type_ := _EVENT; Id := -1; NSP := view_name n; Data := Some args |} in
  encode packet s.

Definition sendConnect (n : nspSocket) (s : socket) : nspSocket * socket * option error :=
  let packet := {| Type_ := _CONNECT; Id := -1; NSP := view_name n; Data := None |} in
  let n1 := set_connected true n in
  let (s1, err) := encode packet s in
  (n1, s1, err).

Definition sendId (n : nspSocket) (args : list value) (s : socket)
  : socket * (Z * option error) :=
  let packet := {| Type_ := _EVENT; Id := id s; NSP := view_name n; Data := Some args |} in
  let id1 := wrap_int (id s + 1) in
  let s1 := set_id (if id1 <? 0 then 0 else id1) s in
  let (s2, err) := encode packet s1 in
  match err with
  | Some _ => (s2, (-1, None))
  | None => (s2, (Id packet, None))
  end.

Definition socket_Disconnect (s : socket) : socket := emit EvConnClose s.

Definition Disconnect (n : nspSocket) (s : socket) : socket :=
  if decide (view_name n = "") then socket_Disconnect s
  else fst (sendDisconnect n s).

Section WithCallerFactory.

(** Modelled from the spec: [newCaller] is not among the sources.  The
    factory fails if the value is not callable in the expected shape. *)
Variable newCaller : value -> error + caller.

Definition is_func (v : value) : bool :=
  match v with
  | VFunc _ => true
  | _ => false
  end.

(** The head of [nspEmit]: a trailing callable is wrapped and cut off. *)
Definition trailing_callable (args : list value)
  : error + (option caller * list value) :=
  match last args with
  | Some fv =>
      if is_func fv then
        match newCaller fv with
        | inl err => inl err
        | inr c => inr (Some c, removelast args)
        end
      else inr (None, args)
  | None => inr (None, args)
  end.

Definition nspEmit (n : nspSocket) (event : string) (args : list value) (s : socket)
  : socket * option error :=
  match trailing_callable args with
  | inl err => (s, Some err)
  | inr (c, args0) =>
      let args1 := VStr event :: args0 in
      match c with
      | Some c =>
          let '(s1, (id, err)) := sendId n args1 s in
          match err with
          | Some err => (s1, Some err)
          | None => (set_acks (<[id := c]> (acks s1)) s1, None)
          end
      | None => send n args1 s
      end
  end.

Definition Emit (n : nspSocket) (event : string) (args : list value) (s : socket)
  : socket * option error :=
  let (s1, err) := nspEmit n event args s in
  match err with
  | Some err => (s1, Some err)
  | None =>
      if decide (event = "disconnect") then (Disconnect n s1, None)
      else (s1, None)
  end.

(** [baseHandler.On]. *)
Definition On (h : baseHandler) (event : string) (f : value) : baseHandler * option error :=
  match newCaller f with
  | inl err => (h, Some err)
  | inr c =>
      ({| events := <[event := c]> (events h); name := name h;
          broadcast := broadcast h |}, None)
  end.

End WithCallerFactory.

(** ** The handler file *)

Definition broadcastName (h : baseHandler) (room : string) : string :=
  name h +:+ ":" +:+ room.

Definition Rooms (h : socketHandler) : list string :=
  filter (fun room => String.prefix (name (base h) +:+ ":") room = true)
         (elements (rooms h)).

Definition Join (h : socketHandler) (room : string) (s : socket)
  : socketHandler * socket * option error :=
  let roomName := broadcastName (base h) room in
  let s1 := emit (EvJoin roomName) s in
  match adaptor_Join (broadcast (base h)) (log s) roomName with
  | Some err => (h, s1, Some err)
  | None => (set_rooms ({[roomName]} ∪ rooms h) h, s1, None)
  end.

Definition Leave (h : socketHandler) (room : string) (s : socket)
  : socketHandler * socket * option error :=
  let roomName := broadcastName (base h) room in
  let s1 := emit (EvLeave roomName) s in
  match adaptor_Leave (broadcast (base h)) (log s) roomName with
  | Some err => (h, s1, Some err)
  | None => (set_rooms (rooms h ∖ {[roomName]}) h, s1, None)
  end.

(** The body of [LeaveAll]'s range loop, over the members in the order the
    iteration meets them. *)
Fixpoint leave_each (h : baseHandler) (members : list string) (s : socket)
  : socket * option error :=
  match members with
  | [] => (s, None)
  | room :: members' =>
      let s1 := emit (EvLeave (broadcastName h room)) s in
      match adaptor_Leave (broadcast h) (log s) (broadcastName h room) with
      | Some err => (s1, Some err)
      | None => leave_each h members' s1
      end
  end.

Definition LeaveAll (h : socketHandler) (s : socket) : socket * option error :=
  leave_each (base h) (elements (rooms h)) s.

Definition baseHandler_BroadcastTo (h : baseHandler) (room ev : string)
    (args : list value) (s : socket) : socket * option error :=
  (emit (EvSend false (broadcastName h room) ev args) s,
   adaptor_Send (broadcast h) (log s) (broadcastName h room)).

Definition BroadcastTo (h : socketHandler) (room ev : string)
    (args : list value) (s : socket) : socket * option error :=
  (emit (EvSend true (broadcastName (base h) room) ev args) s,
   adaptor_Send (broadcast (base h)) (log s) (broadcastName (base h) room)).

(** [decoder.DecodeData] on a nil decoder dereferences it. *)
Definition onAck (h : socketHandler) (id : Z) (d : option decoder) (p : packet)
    (s : socket) : socket * outcome (option error) :=
  match acks s !! id with
  | None => (s, Returns None)
  | Some c =>
      let s1 := set_acks (delete id (acks s)) s in
      let args := GetArgs c in
      match d with
      | None => (s1, Panics)
      | Some dec =>
          let s2 := emit (EvDecodeData args) s1 in
          match DecodeData dec args with
          | inl err => (s2, Returns (Some err))
          | inr args' => (emit (EvCall c args') s2, Returns None)
          end
      end
  end.

(** The [switch] at the head of [onPacket], for the types that name a
    handler. *)
Definition resolve_message (d : option decoder) (p : packet) (s : socket)
  : socket * string :=
  match Type_ p with
  | _CONNECT => (s, "connection")
  | _DISCONNECT => (s, "disconnection")
  | _ERROR => (s, "error")
  | _ =>
      match d with
      | Some dec => (emit EvMessage s, Message dec)
      | None => (s, "")
      end
  end.

(** [for i := len(args); i < olen; i++ { args = append(args, nil) }]. *)
Definition pad (olen : nat) (args : list value) : list value :=
  args ++ replicate (olen - length args) VNil.

(** The last-is-error convention on what the handler returned. *)
Definition as_error (v : value) : option error :=
  match v with
  | VError e => Some e
  | _ => None
  end.

Definition split_return (retV : list value) : option (list value) * option error :=
  match last retV with
  | None => (None, None)
  | Some v =>
      match as_error v with
      | Some err => (Some (removelast retV), Some err)
      | None => (Some retV, None)
      end
  end.

(** From the handler lookup to the call: fresh slots, filled by the decoder
    when there are slots and a decoder, then padded. *)
Definition bind_args (c : caller) (d : option decoder) (s : socket)
  : socket * (error + list value) :=
  let args := GetArgs c in
  let olen := length args in
  match d with
  | Some dec =>
      if (0 <? olen)%nat then
        (emit (EvDecodeData args) s,
         match DecodeData dec args with
         | inl err => inl err
         | inr args' => inr (pad olen args')
         end)
      else (s, inr (pad olen args))
  | None => (s, inr (pad olen args))
  end.

(** The call and the conversion of what it returns. *)
Definition invoke (c : caller) (d : option decoder) (s : socket)
  : socket * outcome (option (list value) * option error) :=
  match bind_args c d s with
  | (s1, inl err) => (s1, Returns (None, Some err))
  | (s1, inr args) =>
      (emit (EvCall c args) s1, Returns (split_return (Func c args)))
  end.

(** [packet.Data = &args] only hands the slots to the decoder; [loop] reads
    nothing but Type, Id and NSP of the packet afterwards, so the packet is
    not returned. *)
Definition onPacket (h : socketHandler) (d : option decoder) (p : packet)
    (s : socket) : socket * outcome (option (list value) * option error) :=
  match Type_ p with
  | _ACK | _BINARY_ACK =>
      let (s1, r) := onAck h (Id p) d p s in
      (s1, match r with
           | Returns err => Returns (None, err)
           | Panics => Panics
           end)
  | _ =>
      let (s1, message) := resolve_message d p s in
      match events (base h) !! message with
      | None =>
          (match d with
           | Some _ => emit EvClose s1
           | None => s1
           end, Returns (None, None))
      | Some c => invoke c d s1
      end
  end.

(** ** The socket file *)

(** [socket.namespace]: the view for [nsp], the root view when there is
    none, and nil when there is no root view either. *)
Definition namespace (s : socket) (nsp : string) : option (string * nspSocket) :=
  match nsps s !! nsp with
  | Some n => Some (nsp, n)
  | None =>
      match nsps s !! "" with
      | Some n => Some ("", n)
      | None => None
      end
  end.

(** Write through the pointer to the view [k]. *)
Definition store (k : string) (n : nspSocket) (s : socket) : socket :=
  set_nsps (<[k := n]> (nsps s)) s.

(** One turn of the [for] in [loop], on the packet the decoder read:
    [Returns (Some err)] leaves the loop with [err], [Returns None] goes
    round again. *)
Definition step (p : packet) (d : decoder) (s : socket)
  : socket * outcome (option error) :=
  match namespace s (NSP p) with
  | None => (s, Panics)
  | Some (k, ns) =>
      match onPacket (handler ns) (Some d) p s with
      | (s1, Panics) => (s1, Panics)
      | (s1, Returns (ret, Some err)) => (s1, Returns (Some err))
      | (s1, Returns (ret, None)) =>
          match Type_ p with
          | _CONNECT =>
              let '(ns1, s2, _) := sendConnect ns s1 in
              (store k ns1 s2, Returns None)
          | _BINARY_EVENT | _EVENT =>
              if 0 <=? Id p then
                let p' := {| Type_ := _ACK; Id := Id p; NSP := NSP p; Data := ret |} in
                let (s2, err) := encode p' s1 in
                (s2, Returns err)
              else (s1, Returns None)
          | _DISCONNECT =>
              let (s2, _) := LeaveAll (handler ns) s1 in
              (store k (set_disconnected true ns) s2, Returns None)
          | _ => (s1, Returns None)
          end
      end
  end.

(** What [decoder.Decode] returns once the transport has nothing left. *)
Definition errClosed : error := mkError "EOF".

(** The [for] in [loop], over the frames the peer sends before the transport
    closes: each is the partially decoded packet with the decoder that holds
    its payload. *)
Fixpoint read_loop (frames : list (packet * decoder)) (s : socket)
  : socket * outcome error :=
  match frames with
  | [] => (s, Returns errClosed)
  | (p, d) :: frames' =>
      match step p d s with
      | (s1, Panics) => (s1, Panics)
      | (s1, Returns (Some err)) => (s1, Returns err)
      | (s1, Returns None) => read_loop frames' s1
      end
  end.

(** The body of the deferred function's range loop, for the view [k]. *)
Definition cleanup_view (k : string) (s : socket) : socket * outcome unit :=
  match nsps s !! k with
  | None => (s, Returns tt)
  | Some v =>
      if disconnected v then (s, Returns tt)
      else
        let (s1, _) := LeaveAll (handler v) s in
        let p := {| Type_ := _DISCONNECT; Id := -1; NSP := k; Data := None |} in
        match onPacket (handler v) None p s1 with
        | (s2, Panics) => (s2, Panics)
        | (s2, Returns _) => (store k (set_disconnected true v) s2, Returns tt)
        end
  end.

Fixpoint cleanup_each (ks : list string) (s : socket) : socket * outcome unit :=
  match ks with
  | [] => (s, Returns tt)
  | k :: ks' =>
      match cleanup_view k s with
      | (s1, Panics) => (s1, Panics)
      | (s1, Returns _) => cleanup_each ks' s1
      end
  end.

(** The deferred function of [loop]. *)
Definition cleanup (s : socket) : socket * outcome unit :=
  cleanup_each (elements (dom (nsps s))) s.

(** [loop] up to its return, the deferred function not yet run. *)
Definition loop_body (frames : list (packet * decoder)) (s : socket)
  : socket * outcome error :=
  let p := {| Type_ := _CONNECT; Id := -1; NSP := ""; Data := None |} in
  match encode p s with
  | (s1, Some err) => (s1, Returns err)
  | (s1, None) =>
      match namespace s1 "" with
      | None => (s1, Panics)
      | Some (_, ns) =>
          match onPacket (handler ns) None p s1 with
          | (s2, Panics) => (s2, Panics)
          | (s2, Returns _) => read_loop frames s2
          end
      end
  end.

(** [socket.loop]: the deferred function runs however the body ends; a panic
    of either is the panic of the call. *)
Definition loop (frames : list (packet * decoder)) (s : socket)
  : socket * outcome error :=
  let (s1, r) := loop_body frames s in
  match cleanup s1 with
  | (s2, Panics) => (s2, Panics)
  | (s2, Returns _) => (s2, r)
  end.

(** ** Concrete configurations *)

Definition quiet : BroadcastAdaptor :=
  {| adaptor_Join := fun _ _ => None;
     adaptor_Leave := fun _ _ => None;
     adaptor_Send := fun _ _ => None |}.

Definition conn_up : Conn := {| Encode := fun _ _ => None |}.

Definition errWrite : error := mkError "write: broken pipe".
Definition conn_down : Conn := {| Encode := fun _ _ => Some errWrite |}.

(** [func(s Socket, name string) string { return "hi " + name }] *)
Definition hello : caller :=
  {| Args := [KString];
     Func := fun args =>
       match args with
       | [VStr who] => [VStr ("hi " +:+ who)]
       | _ => [VStr "hi "]
       end |}.

(** [func(s Socket, n int)] *)
Definition on_pong : caller :=
  {| Args := [KInt]; Func := fun _ => [] |}.

(** [func(s Socket, a string, b int) (string, error)], failing. *)
Definition errRefused : error := mkError "refused".
Definition refuse : caller :=
  {| Args := [KString; KInt];
     Func := fun _ => [VStr "partial"; VError errRefused] |}.

(** [func(s Socket)] *)
Definition on_connection : caller :=
  {| Args := []; Func := fun _ => [] |}.

Definition root_base : baseHandler :=
  {| events := {[ "hello" := hello; "refuse" := refuse; "connection" := on_connection ]};
     name := "";
     broadcast := quiet |}.

Definition chat_base : baseHandler := newBaseHandler "/chat" quiet.

Definition root_view : nspSocket := newNspSocket root_base.

Definition chat_view : nspSocket := newNspSocket chat_base.

(** A freshly accepted connection of a server with the root namespace and
    ["/chat"]. *)
Definition fresh (c : Conn) : socket :=
  newSocket c {[ "" := root_base; "/chat" := chat_base ]}.

(** The function values of the test application. *)
Definition app_newCaller (f : value) : error + caller :=
  match f with
  | VFunc 0 => inr on_pong
  | _ => inl (mkError "f is not func")
  end.

(** The view ["/chat"] after [Join("a")] and [Join("b")]. *)
Definition chat_handler_ab : socketHandler :=
  let '(h1, s1, _) := Join (handler chat_view) "a" (fresh conn_up) in
  let '(h2, _, _) := Join h1 "b" s1 in
  h2.

Definition joined_ab : socket :=
  let '(h1, s1, _) := Join (handler chat_view) "a" (fresh conn_up) in
  let '(_, s2, _) := Join h1 "b" s1 in
  store "/chat" (set_handler chat_handler_ab chat_view) s2.

(** A decoder over a payload that cannot be bound to the slots. *)
Definition errDecode : error := mkError "json: cannot unmarshal".
Definition bad_payload : decoder :=
  {| Message := "refuse"; DecodeData := fun _ => inl errDecode |}.

(** A decoder over the payload [["hello", "alice"]]. *)
Definition hello_alice : decoder :=
  {| Message := "hello"; DecodeData := fun _ => inr [VStr "alice"] |}.

(** A decoder over the payload [["refuse", "x"]]: one element for two
    slots. *)
Definition refuse_x : decoder :=
  {| Message := "refuse"; DecodeData := fun _ => inr [VStr "x"] |}.

(** A decoder over the payload [["xyzzy"]]. *)
Definition xyzzy : decoder :=
  {| Message := "xyzzy"; DecodeData := fun slots => inr slots |}.

(** A decoder over the payload [[43]] of an ACK. *)
Definition pong_43 : decoder :=
  {| Message := ""; DecodeData := fun _ => inr [VInt 43] |}.

(** A connection that emitted with a continuation and waits for ACK 7. *)
Definition awaiting_7 : socket :=
  set_acks {[ 7 := on_pong ]} (set_id 8 (fresh conn_up)).

(** The number of handler invocations in a log. *)
Definition is_call (e : event) : bool :=
  match e with
  | EvCall _ _ => true
  | _ => false
  end.

Definition calls (l : list event) : nat := length (List.filter is_call l).

(** An adaptor that lets nobody in or out. *)
Definition errAdaptor : error := mkError "adaptor: unavailable".
Definition locked : BroadcastAdaptor :=
  {| adaptor_Join := fun _ _ => Some errAdaptor;
     adaptor_Leave := fun _ _ => Some errAdaptor;
     adaptor_Send := fun _ _ => Some errAdaptor |}.

(** An adaptor that lets everybody in and nobody out. *)
Definition sticky : BroadcastAdaptor :=
  {| adaptor_Join := fun _ _ => None;
     adaptor_Leave := fun _ _ => Some errAdaptor;
     adaptor_Send := fun _ _ => None |}.

Definition lobby_handler : socketHandler :=
  newSocketHandler (newBaseHandler "/lobby" sticky).

(** The view of a namespace ["/ops"] served by that adaptor, with two
    members put into its set. *)
Definition ops_handler : socketHandler :=
  set_rooms {[ "/ops:a"; "/ops:b" ]} (newSocketHandler (newBaseHandler "/ops" locked)).

(** [func(s Socket) error], failing. *)
Definition only_error : caller :=
  {| Args := []; Func := fun _ => [VError errRefused] |}.

(** A decoder over the payload [["hello", "alice", "bob"]]. *)
Definition hello_alice_bob : decoder :=
  {| Message := "hello"; DecodeData := fun _ => inr [VStr "alice"; VStr "bob"] |}.

(** A decoder over the payload [["connection"]]. *)
Definition named_connection : decoder :=
  {| Message := "connection"; DecodeData := fun slots => inr slots |}.

(** Two maps of views that differ in the flags of the views at most. *)
Definition same_handlers (m m' : gmap string nspSocket) : Prop :=
  forall k, handler <$> (m' !! k) = handler <$> (m !! k).

(** ** How the operations move the log and the other fields *)

Lemma log_emit e s : log (emit e s) = log s ++ [e].
Proof. reflexivity. Qed.

Lemma nsps_emit e s : nsps (emit e s) = nsps s.
Proof. reflexivity. Qed.

(** ** The ack id counter *)

Lemma max_int_eq : max_int = 9223372036854775807.
Proof. reflexivity. Qed.

Lemma wrap_int_succ (z : Z) :
  0 <= z <= max_int ->
  (if wrap_int (z + 1) <? 0 then 0 else wrap_int (z + 1))
  = if decide (z = max_int) then 0 else z + 1.
Proof.
  intros Hz. rewrite max_int_eq in *. case_decide as Hmax.
  - subst z. reflexivity.
  - unfold wrap_int, int_bits.
    change (2 ^ (64 - 1)) with 9223372036854775808.
    change (2 ^ 64) with 18446744073709551616.
    rewrite Z.mod_small by lia.
    destruct (Z.ltb_spec (z + 1 + 9223372036854775808 - 9223372036854775808) 0); lia.
Qed.

Lemma sendId_log n args s :
  log (fst (sendId n args s))
  = log s ++ [EvEncode {| Type_ := _EVENT; Id := id s; NSP := view_name n;
                          Data := Some args |}].
Proof.
  unfold sendId, encode. cbn.
  destruct (Encode _ _ _); reflexivity.
Qed.

Lemma sendId_id n args s :
  id (fst (sendId n args s))
  = if wrap_int (id s + 1) <? 0 then 0 else wrap_int (id s + 1).
Proof.
  unfold sendId, encode. cbn.
  destruct (Encode _ _ _); reflexivity.
Qed.

(** C5: [sendId] puts the current counter into the packet it encodes and
    then increments the counter, which goes back to 0 when the increment
    overflows; so the emission after the one that carried the largest id
    carries id 0.  The counter stays within 0 and the largest [int]. *)
Theorem sendId_post_increment (n : nspSocket) (args : list value) (s : socket) :
  0 <= id s <= max_int ->
  let pkt := {| Type_ := _EVENT; Id := id s; NSP := view_name n; Data := Some args |} in
  let s' := fst (sendId n args s) in
  log s' = log s ++ [EvEncode pkt]
  /\ snd (sendId n args s)
     = (match Encode (conn s) (log s) pkt with None => id s | Some _ => -1 end, None)
  /\ id s' = (if decide (id s = max_int) then 0 else id s + 1)
  /\ 0 <= id s' <= max_int
  /\ (id s = max_int ->
      forall n2 args2,
        log (fst (sendId n2 args2 s'))
        = log s' ++ [EvEncode {| Type_ := _EVENT; Id := 0; NSP := view_name n2;
                                 Data := Some args2 |}]).
Proof.
  intros Hid pkt s'.
  assert (Hs' : id s' = if decide (id s = max_int) then 0 else id s + 1).
  { subst s'. rewrite sendId_id. by apply wrap_int_succ. }
  split; [apply sendId_log|].
  split.
  { unfold sendId, encode. cbn. fold pkt. destruct (Encode _ _ pkt); reflexivity. }
  split; [exact Hs'|].
  split.
  { rewrite Hs'. case_decide; lia. }
  intros Hmax n2 args2. rewrite sendId_log, Hs'.
  rewrite decide_True by exact Hmax. reflexivity.
Qed.

(** A connection whose counter has reached the largest id. *)
Lemma sendId_post_increment_witness :
  0 <= id (set_id max_int (fresh conn_up)) <= max_int
  /\ id (fst (sendId root_view [VStr "ping"] (set_id max_int (fresh conn_up)))) = 0.
Proof.
  assert (H : 0 <= id (set_id max_int (fresh conn_up)) <= max_int)
    by (split; discriminate).
  split; [exact H|].
  exact (proj1 (proj2 (proj2 (sendId_post_increment root_view [VStr "ping"] _ H)))).
Defined.

(** ** [sendConnect] *)

(** C10: [sendConnect] sets [connected] before it encodes the CONNECT reply,
    and returns what the encoder answers: the flag is true after the call
    whether or not that answer is an error. *)
Theorem sendConnect_connected (n : nspSocket) (s : socket) :
  let pkt := {| Type_ := _CONNECT; Id := -1; NSP := view_name n; Data := None |} in
  connected (fst (fst (sendConnect n s))) = true
  /\ snd (sendConnect n s) = Encode (conn s) (log s) pkt
  /\ log (snd (fst (sendConnect n s))) = log s ++ [EvEncode pkt].
Proof. repeat split. Qed.

(** On a transport that refuses every write the reply fails and the flag is
    set all the same. *)
Lemma sendConnect_failing_encoder :
  snd (sendConnect chat_view (fresh conn_down)) = Some errWrite
  /\ connected (fst (fst (sendConnect chat_view (fresh conn_down)))) = true.
Proof. split; reflexivity. Qed.

(** ** Emission with a continuation *)

Section Emission.

Variable newCaller : value -> error + caller.

Lemma trailing_callable_func args f c :
  last args = Some (VFunc f) ->
  newCaller (VFunc f) = inr c ->
  trailing_callable newCaller args = inr (Some c, removelast args).
Proof.
  intros Hlast Hc. unfold trailing_callable. rewrite Hlast. cbn.
  by rewrite Hc.
Qed.

(** When the encoder accepts the packet, the continuation is stored under
    the id the packet carries. *)
Lemma nspEmit_encoded n ev args f c s :
  last args = Some (VFunc f) ->
  newCaller (VFunc f) = inr c ->
  Encode (conn s) (log s)
    {| Type_ := _EVENT; Id := id s; NSP := view_name n;
       Data := Some (VStr ev :: removelast args) |} = None ->
  snd (nspEmit newCaller n ev args s) = None
  /\ acks (fst (nspEmit newCaller n ev args s)) = <[id s := c]> (acks s).
Proof.
  intros Hlast Hc Henc. unfold nspEmit.
  rewrite (trailing_callable_func _ _ _ Hlast Hc).
  unfold sendId, encode. cbn. rewrite Henc. cbn. done.
Qed.

Lemma nspEmit_encode_failure n ev args f c s err :
  last args = Some (VFunc f) ->
  newCaller (VFunc f) = inr c ->
  Encode (conn s) (log s)
    {| Type_ := _EVENT; Id := id s; NSP := view_name n;
       Data := Some (VStr ev :: removelast args) |} = Some err ->
  snd (nspEmit newCaller n ev args s) = None
  /\ acks (fst (nspEmit newCaller n ev args s)) = <[-1 := c]> (acks s).
Proof.
  intros Hlast Hc Henc. unfold nspEmit.
  rewrite (trailing_callable_func _ _ _ Hlast Hc).
  unfold sendId, encode. cbn. rewrite Henc. cbn. done.
Qed.

Lemma Disconnect_acks n s : acks (Disconnect n s) = acks s.
Proof. unfold Disconnect. by case_decide. Qed.

(** C2: when the encoder fails on the EVENT packet of an emission with a
    trailing callable, [sendId] answers id -1 and no error, so the emission
    returns nil and the continuation is stored in the ack table, under
    -1. *)
Theorem Emit_encode_failure (n : nspSocket) (ev : string) (args : list value)
    (f : nat) (c : caller) (s : socket) (err : error) :
  last args = Some (VFunc f) ->
  newCaller (VFunc f) = inr c ->
  Encode (conn s) (log s)
    {| Type_ := _EVENT; Id := id s; NSP := view_name n;
       Data := Some (VStr ev :: removelast args) |} = Some err ->
  snd (Emit newCaller n ev args s) = None
  /\ acks (fst (Emit newCaller n ev args s)) = <[-1 := c]> (acks s).
Proof.
  intros Hlast Hc Henc.
  destruct (nspEmit_encode_failure n ev args f c s err Hlast Hc Henc) as [Herr Hacks].
  unfold Emit. destruct (nspEmit newCaller n ev args s) as [s1 e].
  cbn in Herr, Hacks. subst e.
  case_decide; cbn; [|done]. by rewrite Disconnect_acks.
Qed.

End Emission.

(** [Emit("ping", 42, fn)] on a transport that refuses the write. *)
Lemma Emit_encode_failure_witness :
  snd (Emit app_newCaller root_view "ping" [VInt 42; VFunc 0] (fresh conn_down)) = None
  /\ acks (fst (Emit app_newCaller root_view "ping" [VInt 42; VFunc 0] (fresh conn_down)))
     = <[-1 := on_pong]> ∅.
Proof.
  exact (Emit_encode_failure app_newCaller root_view "ping" [VInt 42; VFunc 0]
           0%nat on_pong (fresh conn_down) errWrite eq_refl eq_refl eq_refl).
Defined.

(** ** Dispatch: what [onPacket] touches *)

Lemma resolve_message_nsps d p s : nsps (fst (resolve_message d p s)) = nsps s.
Proof. unfold resolve_message. destruct (Type_ p), d; reflexivity. Qed.

Lemma invoke_nsps c d s : nsps (fst (invoke c d s)) = nsps s.
Proof.
  unfold invoke, bind_args. destruct d as [dec|]; [|reflexivity].
  destruct (0 <? length (GetArgs c))%nat; [|reflexivity].
  destruct (DecodeData dec (GetArgs c)); reflexivity.
Qed.

Lemma onAck_nsps h i d p s : nsps (fst (onAck h i d p s)) = nsps s.
Proof.
  unfold onAck. destruct (acks s !! i); [|reflexivity].
  destruct d as [dec|]; [|reflexivity].
  destruct (DecodeData dec _); reflexivity.
Qed.

Lemma onPacket_nsps h d p s : nsps (fst (onPacket h d p s)) = nsps s.
Proof.
  assert (Hack : forall s1 r, onAck h (Id p) d p s = (s1, r) -> nsps s1 = nsps s).
  { intros s1 r H. rewrite <- (onAck_nsps h (Id p) d p s). by rewrite H. }
  assert (Hev : forall s1 m c, resolve_message d p s = (s1, m) ->
                nsps (fst (invoke c d s1)) = nsps s
                /\ nsps (match d with Some _ => emit EvClose s1 | None => s1 end) = nsps s).
  { intros s1 m c H. rewrite invoke_nsps.
    rewrite <- (resolve_message_nsps d p s), H. by destruct d. }
  unfold onPacket.
  destruct (Type_ p);
    try (destruct (onAck h (Id p) d p s) as [s1 r] eqn:E; cbn; by eapply Hack);
    destruct (resolve_message d p s) as [s1 m] eqn:E;
    destruct (events (base h) !! m) as [c|]; cbn;
    by (apply (Hev s1 m c) || apply (Hev s1 m on_connection)).
Qed.

(** With a nil decoder a packet that names a handler is dispatched without a
    single call on the decoder. *)
Lemma pad_full (c : caller) : pad (length (GetArgs c)) (GetArgs c) = GetArgs c.
Proof. unfold pad. rewrite Nat.sub_diag. cbn. by rewrite app_nil_r. Qed.

Lemma onPacket_nil h p s :
  Type_ p <> _ACK -> Type_ p <> _BINARY_ACK ->
  onPacket h None p s
  = match events (base h) !! snd (resolve_message None p s) with
    | Some c => (emit (EvCall c (GetArgs c)) s,
                 Returns (split_return (Func c (GetArgs c))))
    | None => (s, Returns (None, None))
    end.
Proof.
  intros Hack Hback. unfold onPacket.
  destruct (Type_ p) eqn:Et; try congruence;
    unfold resolve_message; rewrite Et; cbn;
    (destruct (events (base h) !! _) as [c|]; [|reflexivity]);
    unfold invoke, bind_args; by rewrite pad_full.
Qed.

(** ** Rooms *)

Lemma leave_each_nsps h ms s : nsps (fst (leave_each h ms s)) = nsps s.
Proof.
  revert s. induction ms as [|room ms IH]; intros s; cbn; [reflexivity|].
  destruct (adaptor_Leave _ _ _); [reflexivity|]. by rewrite IH.
Qed.

Lemma LeaveAll_nsps h s : nsps (fst (LeaveAll h s)) = nsps s.
Proof. apply leave_each_nsps. Qed.

(** With an adaptor that lets every socket go, [LeaveAll] asks it to leave
    the prefixed name of every member. *)
Lemma leave_each_log h ms s :
  (forall l room, adaptor_Leave (broadcast h) l room = None) ->
  log (fst (leave_each h ms s))
  = log s ++ map (fun room => EvLeave (broadcastName h room)) ms.
Proof.
  intros Hok. revert s. induction ms as [|room ms IH]; intros s; cbn.
  - by rewrite app_nil_r.
  - rewrite Hok, IH. cbn. by rewrite <- app_assoc.
Qed.

Lemma Join_rooms h room s :
  adaptor_Join (broadcast (base h)) (log s) (broadcastName (base h) room) = None ->
  rooms (fst (fst (Join h room s))) = {[broadcastName (base h) room]} ∪ rooms h
  /\ base (fst (fst (Join h room s))) = base h.
Proof. intros H. unfold Join. by rewrite H. Qed.

(** Whatever the namespace and the room: after a [Join] that the adaptor
    accepted, [LeaveAll] asks the adaptor to leave the room name with the
    namespace prefix on it twice. *)
Lemma LeaveAll_after_Join h room s :
  (forall l r, adaptor_Join (broadcast (base h)) l r = None) ->
  (forall l r, adaptor_Leave (broadcast (base h)) l r = None) ->
  EvLeave (name (base h) +:+ ":" +:+ name (base h) +:+ ":" +:+ room)
    ∈ log (fst (LeaveAll (fst (fst (Join h room s))) (snd (fst (Join h room s))))).
Proof.
  intros Hjoin Hleave.
  destruct (Join_rooms h room s (Hjoin _ _)) as [Hrooms Hbase].
  unfold LeaveAll. rewrite Hbase, leave_each_log by done.
  apply elem_of_app. right.
  apply (list_elem_of_fmap_2 (fun r => EvLeave (broadcastName (base h) r))).
  apply elem_of_elements. rewrite Hrooms.
  apply elem_of_union_l. by apply elem_of_singleton.
Qed.

(** C3: on the connection that joined rooms "a" and "b" of "/chat", the
    membership set holds "/chat:a" and "/chat:b", and when the transport
    closes [LeaveAll] prefixes these members once more: the adaptor is asked
    to leave "/chat:/chat:a" and "/chat:/chat:b". *)
Theorem LeaveAll_prefixes_members_again :
  elements (rooms chat_handler_ab) = ["/chat:a"; "/chat:b"]
  /\ log (fst (loop [] joined_ab))
     = [EvJoin "/chat:a"; EvJoin "/chat:b";
        EvEncode {| Type_ := _CONNECT; Id := -1; NSP := ""; Data := None |};
        EvCall on_connection [];
        EvLeave "/chat:/chat:a"; EvLeave "/chat:/chat:b"].
Proof. split; reflexivity. Qed.

(** ** Teardown *)

Lemma cleanup_view_spec k s :
  snd (cleanup_view k s) = Returns tt
  /\ nsps (fst (cleanup_view k s))
     = match nsps s !! k with
       | Some v =>
           if disconnected v then nsps s
           else <[k := set_disconnected true v]> (nsps s)
       | None => nsps s
       end.
Proof.
  unfold cleanup_view. destruct (nsps s !! k) as [v|]; [|done].
  destruct (disconnected v); [done|].
  destruct (LeaveAll (handler v) s) as [s1 e] eqn:E1.
  assert (H1 : nsps s1 = nsps s).
  { rewrite <- (LeaveAll_nsps (handler v) s). by rewrite E1. }
  rewrite onPacket_nil by (cbn; congruence).
  destruct (events _ !! _); cbn; by rewrite H1.
Qed.

Lemma cleanup_each_spec ks s :
  snd (cleanup_each ks s) = Returns tt
  /\ forall k v', nsps (fst (cleanup_each ks s)) !! k = Some v' ->
       exists v, nsps s !! k = Some v
         /\ handler v' = handler v
         /\ (k ∈ ks \/ disconnected v = true -> disconnected v' = true).
Proof.
  revert s. induction ks as [|k0 ks IH]; intros s; cbn.
  - split; [done|]. intros k v' Hk. exists v'. repeat split; [done|].
    intros [Hin|Hd]; [|done]. by apply elem_of_nil in Hin.
  - destruct (cleanup_view_spec k0 s) as [Hr Hn].
    destruct (cleanup_view k0 s) as [s1 r]. cbn in Hr, Hn. subst r.
    destruct (IH s1) as [IHr IHn]. split; [done|].
    intros k v' Hk. destruct (IHn k v' Hk) as (v1 & Hv1 & Hh & Hd).
    rewrite Hn in Hv1. clear Hn IHn IHr Hk.
    destruct (nsps s !! k0) as [v0|] eqn:E0.
    + destruct (disconnected v0) eqn:Ed0.
      * exists v1. repeat split; [done..|].
        intros [Hin|Hdis]; [|by apply Hd; right].
        apply elem_of_cons in Hin as [->|Hin]; [|by apply Hd; left].
        apply Hd; right. congruence.
      * destruct (decide (k = k0)) as [->|Hne].
        -- rewrite lookup_insert_eq in Hv1. injection Hv1 as <-.
           exists v0. repeat split; [done..|]. intros _. apply Hd. by right.
        -- rewrite lookup_insert_ne in Hv1 by done.
           exists v1. repeat split; [done..|].
           intros [Hin|Hdis]; [|by apply Hd; right].
           apply elem_of_cons in Hin as [->|Hin]; [done|by apply Hd; left].
    + exists v1. repeat split; [done..|].
      intros [Hin|Hdis]; [|by apply Hd; right].
      apply elem_of_cons in Hin as [->|Hin]; [congruence|by apply Hd; left].
Qed.

(** The deferred function returns, keeps every view's handler and leaves
    every view disconnected. *)
Lemma cleanup_spec s :
  snd (cleanup s) = Returns tt
  /\ forall k v', nsps (fst (cleanup s)) !! k = Some v' ->
       disconnected v' = true
       /\ exists v, nsps s !! k = Some v /\ handler v' = handler v.
Proof.
  unfold cleanup. destruct (cleanup_each_spec (elements (dom (nsps s))) s) as [Hr Hn].
  split; [done|]. intros k v' Hk. destruct (Hn k v' Hk) as (v & Hv & Hh & Hd).
  split; [|by exists v].
  apply Hd. left. apply elem_of_elements, elem_of_dom. by exists v.
Qed.

Lemma loop_nsps frames s :
  nsps (fst (loop frames s)) = nsps (fst (cleanup (fst (loop_body frames s)))).
Proof.
  unfold loop. destruct (loop_body frames s) as [s1 r]. cbn.
  destruct (cleanup_spec s1) as [Hr _].
  destruct (cleanup s1) as [s2 r2]. cbn in *. by subst r2.
Qed.

(** C4, the claim as stated, fails: on the connection that joined rooms "a"
    and "b" of "/chat", the view of "/chat" still holds both members after
    [loop] has returned. *)
Lemma loop_keeps_rooms_counterexample :
  ~ (forall k v, nsps (fst (loop [] joined_ab)) !! k = Some v ->
       disconnected v = true /\ rooms (handler v) = ∅).
Proof.
  intros H.
  assert (Hv : nsps (fst (loop [] joined_ab)) !! "/chat"
               = Some (set_disconnected true (set_handler chat_handler_ab chat_view)))
    by (vm_compute; reflexivity).
  destruct (H _ _ Hv) as [_ Hrooms].
  apply (f_equal elements) in Hrooms. vm_compute in Hrooms. discriminate Hrooms.
Qed.

(** C4, amended: however [loop] ends, every namespace view of the connection
    has its [disconnected] flag set when it has returned. *)
Theorem loop_disconnects_every_view (frames : list (packet * decoder)) (s : socket)
    (k : string) (v : nspSocket) :
  nsps (fst (loop frames s)) !! k = Some v ->
  disconnected v = true.
Proof.
  rewrite loop_nsps. intros Hk.
  by destruct (cleanup_spec (fst (loop_body frames s))) as [_ Hn];
     destruct (Hn k v Hk).
Qed.

Lemma loop_disconnects_every_view_witness :
  nsps (fst (loop [] joined_ab)) !! "/chat"
    = Some (set_disconnected true (set_handler chat_handler_ab chat_view))
  /\ disconnected (set_disconnected true (set_handler chat_handler_ab chat_view)) = true.
Proof.
  assert (Hv : nsps (fst (loop [] joined_ab)) !! "/chat"
               = Some (set_disconnected true (set_handler chat_handler_ab chat_view)))
    by (vm_compute; reflexivity).
  split; [exact Hv|].
  exact (loop_disconnects_every_view [] joined_ab "/chat" _ Hv).
Defined.

(** ** Dispatch of a packet that names a handler *)

Lemma length_GetArgs c : length (GetArgs c) = length (Args c).
Proof. apply length_map. Qed.

Lemma onPacket_named h d p s :
  Type_ p <> _ACK -> Type_ p <> _BINARY_ACK ->
  onPacket h d p s
  = match events (base h) !! snd (resolve_message d p s) with
    | Some c => invoke c d (fst (resolve_message d p s))
    | None =>
        (match d with
         | Some _ => emit EvClose (fst (resolve_message d p s))
         | None => fst (resolve_message d p s)
         end, Returns (None, None))
    end.
Proof.
  intros Hack Hback. unfold onPacket.
  destruct (Type_ p) eqn:Et; try congruence;
    by destruct (resolve_message d p s).
Qed.

Lemma resolve_message_conn d p s : conn (fst (resolve_message d p s)) = conn s.
Proof. unfold resolve_message. destruct (Type_ p), d; reflexivity. Qed.

Lemma resolve_message_calls d p s :
  calls (log (fst (resolve_message d p s))) = calls (log s).
Proof.
  unfold resolve_message, calls.
  destruct (Type_ p), d; cbn; try reflexivity;
    by rewrite List.filter_app, length_app, Nat.add_0_r.
Qed.

(** C9: a packet that is not an ACK, dispatched with a nil decoder, makes
    [onPacket] return without a panic and without any call on the decoder:
    all that leaves the package is the call of the registered handler, if
    there is one, on its fresh zero-valued slots. *)
Theorem onPacket_nil_decoder (h : socketHandler) (p : packet) (s : socket) :
  Type_ p <> _ACK -> Type_ p <> _BINARY_ACK ->
  let message :=
    match Type_ p with
    | _CONNECT => "connection"
    | _DISCONNECT => "disconnection"
    | _ERROR => "error"
    | _ => ""
    end in
  (exists r, snd (onPacket h None p s) = Returns r)
  /\ log (fst (onPacket h None p s))
     = log s ++ match events (base h) !! message with
                | Some c => [EvCall c (GetArgs c)]
                | None => []
                end.
Proof.
  intros Hack Hback message. rewrite onPacket_nil by done.
  replace (snd (resolve_message None p s)) with message
    by (unfold resolve_message, message; by destruct (Type_ p)).
  destruct (events (base h) !! message) as [c|]; cbn.
  - split; [by eexists|reflexivity].
  - split; [by eexists|by rewrite app_nil_r].
Qed.

(** The root CONNECT that [loop] dispatches on a fresh connection. *)
Lemma onPacket_nil_decoder_witness :
  (exists r, snd (onPacket (handler root_view) None
                    {| Type_ := _CONNECT; Id := -1; NSP := ""; Data := None |}
                    (fresh conn_up)) = Returns r)
  /\ log (fst (onPacket (handler root_view) None
                 {| Type_ := _CONNECT; Id := -1; NSP := ""; Data := None |}
                 (fresh conn_up)))
     = [EvCall on_connection []].
Proof.
  apply (onPacket_nil_decoder (handler root_view)
           {| Type_ := _CONNECT; Id := -1; NSP := ""; Data := None |}
           (fresh conn_up)); discriminate.
Defined.

(** C7: when the resolved event name has no handler, [onPacket] closes the
    decoder if there is one, invokes nothing and returns (nil, nil); the turn
    of the loop then goes round again, unless the packet asked for an ACK
    and the transport refuses it. *)
Theorem onPacket_unknown_event (h : socketHandler) (d : option decoder) (p : packet)
    (s s0 : socket) (message : string) :
  Type_ p <> _ACK -> Type_ p <> _BINARY_ACK ->
  resolve_message d p s = (s0, message) ->
  events (base h) !! message = None ->
  onPacket h d p s
  = (match d with Some _ => emit EvClose s0 | None => s0 end, Returns (None, None))
  /\ calls (log (fst (onPacket h d p s))) = calls (log s)
  /\ forall dec k ns,
       d = Some dec -> namespace s (NSP p) = Some (k, ns) -> handler ns = h ->
       snd (step p dec s) = Returns None
       \/ ((Type_ p = _EVENT \/ Type_ p = _BINARY_EVENT) /\ 0 <= Id p
           /\ snd (step p dec s)
              = Returns (Encode (conn s) (log s0 ++ [EvClose])
                           {| Type_ := _ACK; Id := Id p; NSP := NSP p;
                              Data := None |})).
Proof.
  intros Hack Hback Hres Hev.
  assert (Hon : onPacket h d p s
                = (match d with Some _ => emit EvClose s0 | None => s0 end,
                   Returns (None, None))).
  { rewrite onPacket_named by done. rewrite Hres. cbn. by rewrite Hev. }
  split; [exact Hon|]. split.
  { rewrite Hon, <- (resolve_message_calls d p s), Hres. cbn.
    destruct d; [|reflexivity].
    unfold calls. cbn. by rewrite List.filter_app, length_app, Nat.add_0_r. }
  intros dec k ns -> Hns <-. unfold step. rewrite Hns, Hon.
  pose proof (resolve_message_conn (Some dec) p s) as Hconn.
  rewrite Hres in Hconn. cbn in Hconn.
  destruct (Type_ p) eqn:Et; try congruence; cbn.
  - by left.
  - destruct (LeaveAll _ _). by left.
  - destruct (Z.leb_spec 0 (Id p)); cbn; [|by left].
    right. rewrite Hconn. by repeat split; try left.
  - by left.
  - destruct (Z.leb_spec 0 (Id p)); cbn; [|by left].
    right. rewrite Hconn. by repeat split; try right.
Qed.

(** An EVENT named "xyzzy" with no ACK asked for. *)
Lemma onPacket_unknown_event_witness :
  onPacket (handler root_view) (Some xyzzy)
    {| Type_ := _EVENT; Id := -1; NSP := ""; Data := None |} (fresh conn_up)
  = (emit EvClose (emit EvMessage (fresh conn_up)), Returns (None, None)).
Proof.
  apply (onPacket_unknown_event (handler root_view) (Some xyzzy)
           {| Type_ := _EVENT; Id := -1; NSP := ""; Data := None |}
           (fresh conn_up) (emit EvMessage (fresh conn_up)) "xyzzy");
    (discriminate || reflexivity).
Defined.

(** C8: when the decoder leaves fewer elements than the handler declares
    parameters, the missing slots are filled with nil up to the declared
    count and the handler is invoked on exactly that many arguments. *)
Theorem onPacket_pads_missing_slots (h : socketHandler) (d : decoder) (p : packet)
    (s s0 : socket) (message : string) (c : caller) (args' : list value) :
  Type_ p <> _ACK -> Type_ p <> _BINARY_ACK ->
  resolve_message (Some d) p s = (s0, message) ->
  events (base h) !! message = Some c ->
  DecodeData d (GetArgs c) = inr args' ->
  (length args' < length (Args c))%nat ->
  let padded := args' ++ replicate (length (Args c) - length args') VNil in
  length padded = length (Args c)
  /\ onPacket h (Some d) p s
     = (emit (EvCall c padded) (emit (EvDecodeData (GetArgs c)) s0),
        Returns (split_return (Func c padded))).
Proof.
  intros Hack Hback Hres Hev Hdec Hlen padded. split.
  { unfold padded. rewrite length_app, length_replicate. lia. }
  rewrite onPacket_named by done. rewrite Hres. cbn. rewrite Hev.
  unfold invoke, bind_args. rewrite Hdec, length_GetArgs.
  destruct (Nat.ltb_spec 0 (length (Args c))); [|lia].
  reflexivity.
Qed.

(** The handler of "refuse" declares a string and an int; the payload holds
    one element. *)
Lemma onPacket_pads_missing_slots_witness :
  length ([VStr "x"] ++ replicate (2 - 1) VNil) = 2%nat
  /\ onPacket (handler root_view) (Some refuse_x)
       {| Type_ := _EVENT; Id := -1; NSP := ""; Data := None |} (fresh conn_up)
     = (emit (EvCall refuse [VStr "x"; VNil])
          (emit (EvDecodeData [VStr ""; VInt 0]) (emit EvMessage (fresh conn_up))),
        Returns (Some [VStr "partial"], Some errRefused)).
Proof.
  apply (onPacket_pads_missing_slots (handler root_view) refuse_x
           {| Type_ := _EVENT; Id := -1; NSP := ""; Data := None |}
           (fresh conn_up) (emit EvMessage (fresh conn_up)) "refuse" refuse [VStr "x"]);
    (discriminate || reflexivity || (cbn; lia)).
Defined.

(** ** Acknowledgements *)

(** C6, the claim as stated, fails: ACK 7 arrives for a stored continuation
    with a payload the decoder cannot bind; [onPacket] returns the decoder's
    error and the continuation is not invoked. *)
Lemma onAck_decode_error_counterexample :
  acks awaiting_7 !! 7 = Some on_pong
  /\ snd (onPacket (handler root_view) (Some bad_payload)
            {| Type_ := _ACK; Id := 7; NSP := ""; Data := None |} awaiting_7)
     = Returns (None, Some errDecode)
  /\ calls (log (fst (onPacket (handler root_view) (Some bad_payload)
                        {| Type_ := _ACK; Id := 7; NSP := ""; Data := None |}
                        awaiting_7))) = 0%nat.
Proof. repeat split; vm_compute; reflexivity. Qed.

(** C6, amended: for an inbound ACK or BINARY_ACK with id i, if the ack table
    has no entry for i, [onPacket] returns nil and changes nothing; if it has
    one, the entry is removed, the decoder is asked to fill the
    continuation's slots, and the continuation is invoked exactly once, on
    the decoded arguments, when the decoder succeeds; when the decoder fails,
    its error is returned and the continuation is not invoked. *)
Theorem onPacket_ack (h : socketHandler) (d : decoder) (p : packet) (s : socket) :
  Type_ p = _ACK \/ Type_ p = _BINARY_ACK ->
  match acks s !! Id p with
  | None => onPacket h (Some d) p s = (s, Returns (None, None))
  | Some c =>
      acks (fst (onPacket h (Some d) p s)) = delete (Id p) (acks s)
      /\ match DecodeData d (GetArgs c) with
         | inr args =>
             log (fst (onPacket h (Some d) p s))
               = log s ++ [EvDecodeData (GetArgs c); EvCall c args]
             /\ calls (log (fst (onPacket h (Some d) p s))) = S (calls (log s))
             /\ snd (onPacket h (Some d) p s) = Returns (None, None)
         | inl err =>
             log (fst (onPacket h (Some d) p s))
               = log s ++ [EvDecodeData (GetArgs c)]
             /\ calls (log (fst (onPacket h (Some d) p s))) = calls (log s)
             /\ snd (onPacket h (Some d) p s) = Returns (None, Some err)
         end
  end.
Proof.
  intros Hty.
  assert (Hon : onPacket h (Some d) p s
                = (fst (onAck h (Id p) (Some d) p s),
                   match snd (onAck h (Id p) (Some d) p s) with
                   | Returns err => Returns (None, err)
                   | Panics => Panics
                   end)).
  { unfold onPacket. destruct Hty as [-> | ->];
      by destruct (onAck h (Id p) (Some d) p s). }
  rewrite Hon. unfold onAck, calls.
  destruct (acks s !! Id p) as [c|]; [|reflexivity].
  destruct (DecodeData d (GetArgs c)) as [err|args]; cbn;
    rewrite <- ?app_assoc, ?List.filter_app, ?length_app; cbn;
    repeat split; lia.
Qed.

(** ACK 7 with payload [[43]] for the stored continuation. *)
Lemma onPacket_ack_witness :
  acks (fst (onPacket (handler root_view) (Some pong_43)
               {| Type_ := _ACK; Id := 7; NSP := ""; Data := None |} awaiting_7))
    = delete 7 (acks awaiting_7)
  /\ log (fst (onPacket (handler root_view) (Some pong_43)
                 {| Type_ := _ACK; Id := 7; NSP := ""; Data := None |} awaiting_7))
       = log awaiting_7 ++ [EvDecodeData (GetArgs on_pong); EvCall on_pong [VInt 43]]
  /\ calls (log (fst (onPacket (handler root_view) (Some pong_43)
                        {| Type_ := _ACK; Id := 7; NSP := ""; Data := None |}
                        awaiting_7))) = S (calls (log awaiting_7))
  /\ snd (onPacket (handler root_view) (Some pong_43)
            {| Type_ := _ACK; Id := 7; NSP := ""; Data := None |} awaiting_7)
     = Returns (None, None).
Proof.
  exact (onPacket_ack (handler root_view) pong_43
           {| Type_ := _ACK; Id := 7; NSP := ""; Data := None |} awaiting_7
           (or_introl eq_refl)).
Defined.

(** ** The turn of the loop on an EVENT that asks for an ACK *)

Lemma bind_args_conn c d s : conn (fst (bind_args c d s)) = conn s.
Proof.
  unfold bind_args. destruct d as [dec|]; [|reflexivity].
  by destruct (0 <? length (GetArgs c))%nat.
Qed.

Lemma resolve_message_event d p s :
  Type_ p = _EVENT \/ Type_ p = _BINARY_EVENT ->
  resolve_message (Some d) p s = (emit EvMessage s, Message d).
Proof. unfold resolve_message. by intros [-> | ->]. Qed.

(** C1, the claim as stated, fails: an EVENT with id 7 reaches a handler
    whose last return value is an error; the turn ends the loop with that
    error and nothing is encoded. *)
Lemma step_handler_error_counterexample :
  snd (step {| Type_ := _EVENT; Id := 7; NSP := ""; Data := None |} refuse_x
         (fresh conn_up))
  = Returns (Some errRefused)
  /\ log (fst (step {| Type_ := _EVENT; Id := 7; NSP := ""; Data := None |} refuse_x
                 (fresh conn_up)))
     = [EvMessage; EvDecodeData [VStr ""; VInt 0]; EvCall refuse [VStr "x"; VNil]]
  /\ forall q, EvEncode q ∉
       log (fst (step {| Type_ := _EVENT; Id := 7; NSP := ""; Data := None |} refuse_x
                   (fresh conn_up))).
Proof.
  assert (Hlog : log (fst (step {| Type_ := _EVENT; Id := 7; NSP := ""; Data := None |}
                             refuse_x (fresh conn_up)))
                 = [EvMessage; EvDecodeData [VStr ""; VInt 0];
                    EvCall refuse [VStr "x"; VNil]])
    by (vm_compute; reflexivity).
  split; [vm_compute; reflexivity|]. split; [exact Hlog|].
  intros q Hq. rewrite Hlog in Hq.
  repeat (apply elem_of_cons in Hq as [Hq|Hq]; [discriminate Hq|]).
  by apply elem_of_nil in Hq.
Qed.

(** C1, amended: for an inbound EVENT or BINARY_EVENT with Id >= 0 whose
    handler is invoked, the turn of the loop encodes, after the call, an ACK
    with the same Id and the same NSP whose Data is what the handler
    returned, provided the last return value is not an error; when it is an
    error, the turn ends the loop with that error and encodes no ACK. *)
Theorem step_acknowledges (p : packet) (d : decoder) (s s0 : socket) (k : string)
    (ns : nspSocket) (c : caller) (args : list value) :
  Type_ p = _EVENT \/ Type_ p = _BINARY_EVENT ->
  0 <= Id p ->
  namespace s (NSP p) = Some (k, ns) ->
  events (base (handler ns)) !! Message d = Some c ->
  bind_args c (Some d) (emit EvMessage s) = (s0, inr args) ->
  let ack ret := {| Type_ := _ACK; Id := Id p; NSP := NSP p; Data := ret |} in
  match last (Func c args) with
  | Some (VError err) =>
      log (fst (step p d s)) = log s0 ++ [EvCall c args]
      /\ snd (step p d s) = Returns (Some err)
  | Some _ =>
      log (fst (step p d s))
        = log s0 ++ [EvCall c args; EvEncode (ack (Some (Func c args)))]
      /\ snd (step p d s)
         = Returns (Encode (conn s) (log s0 ++ [EvCall c args])
                      (ack (Some (Func c args))))
  | None =>
      log (fst (step p d s)) = log s0 ++ [EvCall c args; EvEncode (ack None)]
      /\ snd (step p d s)
         = Returns (Encode (conn s) (log s0 ++ [EvCall c args]) (ack None))
  end.
Proof.
  intros Hty Hid Hns Hev Hbind ack.
  pose proof (bind_args_conn c (Some d) (emit EvMessage s)) as Hconn.
  rewrite Hbind in Hconn. cbn in Hconn.
  assert (Hon : onPacket (handler ns) (Some d) p s
                = (emit (EvCall c args) s0, Returns (split_return (Func c args)))).
  { rewrite onPacket_named by (destruct Hty as [-> | ->]; discriminate).
    rewrite (resolve_message_event d p s Hty). cbn. rewrite Hev.
    unfold invoke. by rewrite Hbind. }
  apply Z.leb_le in Hid.
  unfold step. rewrite Hns, Hon. unfold split_return.
  destruct (last (Func c args)) as [[| | | |err|]|]; cbn;
    try (destruct Hty as [-> | ->]; rewrite Hid; cbn;
         rewrite <- ?app_assoc, Hconn; by split).
  by split.
Qed.

(** The EVENT [["hello", "alice"]] with id 7 on the root namespace. *)
Lemma step_acknowledges_witness :
  log (fst (step {| Type_ := _EVENT; Id := 7; NSP := ""; Data := None |} hello_alice
              (fresh conn_up)))
    = [EvMessage; EvDecodeData [VStr ""]; EvCall hello [VStr "alice"];
       EvEncode {| Type_ := _ACK; Id := 7; NSP := ""; Data := Some [VStr "hi alice"] |}]
  /\ snd (step {| Type_ := _EVENT; Id := 7; NSP := ""; Data := None |} hello_alice
            (fresh conn_up))
     = Returns None.
Proof.
  assert (Hid : 0 <= 7) by lia.
  assert (Hns : namespace (fresh conn_up) "" = Some ("", root_view))
    by (vm_compute; reflexivity).
  assert (Hev : events (base (handler root_view)) !! Message hello_alice = Some hello)
    by (vm_compute; reflexivity).
  exact (step_acknowledges
           {| Type_ := _EVENT; Id := 7; NSP := ""; Data := None |} hello_alice
           (fresh conn_up)
           (emit (EvDecodeData [VStr ""]) (emit EvMessage (fresh conn_up)))
           "" root_view hello [VStr "alice"]
           (or_introl eq_refl) Hid Hns Hev eq_refl).
Defined.

(** * Further properties

    ** Rooms: [Join], [Leave], [Rooms], [LeaveAll] *)

Lemma prefix_append (a b : string) : String.prefix a (a +:+ b) = true.
Proof.
  induction a as [|ch a IH]; [by destruct b|].
  change (String.prefix (String ch a) (String ch (a +:+ b)) = true). cbn.
  by destruct (Ascii.ascii_dec ch ch).
Qed.

Lemma append_assoc (a b c : string) : (a +:+ b) +:+ c = a +:+ b +:+ c.
Proof.
  induction a as [|ch a IH]; [done|].
  change (String ch ((a +:+ b) +:+ c) = String ch (a +:+ b +:+ c)).
  by rewrite IH.
Qed.

Lemma broadcastName_prefix h room :
  String.prefix (name h +:+ ":") (broadcastName h room) = true.
Proof.
  unfold broadcastName. rewrite <- append_assoc. apply prefix_append.
Qed.

(** A room that was joined and left again is no member and is not listed:
    the adaptor is asked to join and to leave the same prefixed name, and
    the membership set is the one from before without that name. *)
Theorem Join_then_Leave (h : socketHandler) (room : string) (s : socket) :
  let roomName := broadcastName (base h) room in
  adaptor_Join (broadcast (base h)) (log s) roomName = None ->
  adaptor_Leave (broadcast (base h)) (log s ++ [EvJoin roomName]) roomName = None ->
  let h1 := fst (fst (Join h room s)) in
  let s1 := snd (fst (Join h room s)) in
  snd (Leave h1 room s1) = None
  /\ rooms (fst (fst (Leave h1 room s1))) = (rooms h ∖ {[roomName]})
  /\ (roomName ∉ Rooms (fst (fst (Leave h1 room s1))))
  /\ log (snd (fst (Leave h1 room s1))) = log s ++ [EvJoin roomName; EvLeave roomName].
Proof.
  intros roomName Hjoin Hleave h1 s1.
  assert (E1 : Join h room s
               = (set_rooms ({[roomName]} ∪ rooms h) h, emit (EvJoin roomName) s, None)).
  { unfold Join. fold roomName. by rewrite Hjoin. }
  subst h1 s1. rewrite E1. cbn [fst snd].
  unfold Leave. cbn [base set_rooms rooms]. fold roomName.
  rewrite log_emit, Hleave. cbn [fst snd set_rooms rooms].
  assert (Hset : ({[roomName]} ∪ rooms h) ∖ {[roomName]} = (rooms h ∖ {[roomName]})).
  { apply set_eq. intros r.
    rewrite !elem_of_difference, elem_of_union, elem_of_singleton. tauto. }
  rewrite Hset. repeat split.
  - unfold Rooms. cbn [rooms base]. intros Hin.
    apply list_elem_of_filter in Hin as [_ Hin].
    apply elem_of_elements, elem_of_difference in Hin as [_ Hin].
    apply Hin. by apply elem_of_singleton.
  - cbn. by rewrite <- app_assoc.
Qed.

Lemma Join_then_Leave_witness :
  snd (Leave (fst (fst (Join (handler chat_view) "a" (fresh conn_up)))) "a"
         (snd (fst (Join (handler chat_view) "a" (fresh conn_up))))) = None
  /\ rooms (fst (fst (Leave (fst (fst (Join (handler chat_view) "a" (fresh conn_up)))) "a"
                        (snd (fst (Join (handler chat_view) "a" (fresh conn_up)))))))
     = (rooms (handler chat_view) ∖ {["/chat:a"]})
  /\ ("/chat:a" ∉ Rooms (fst (fst (Leave (fst (fst (Join (handler chat_view) "a"
                                                     (fresh conn_up)))) "a"
                        (snd (fst (Join (handler chat_view) "a" (fresh conn_up))))))))
  /\ log (snd (fst (Leave (fst (fst (Join (handler chat_view) "a" (fresh conn_up)))) "a"
                      (snd (fst (Join (handler chat_view) "a" (fresh conn_up)))))))
     = [EvJoin "/chat:a"; EvLeave "/chat:a"].
Proof.
  exact (Join_then_Leave (handler chat_view) "a" (fresh conn_up) eq_refl eq_refl).
Defined.

(** After a [Join] that the adaptor accepted, [Rooms] lists the prefixed
    name, and every name that [Rooms] lists is a member that starts with the
    namespace and a colon. *)
Theorem Join_listed (h : socketHandler) (room : string) (s : socket) :
  adaptor_Join (broadcast (base h)) (log s) (broadcastName (base h) room) = None ->
  let h1 := fst (fst (Join h room s)) in
  broadcastName (base h) room ∈ Rooms h1
  /\ forall r, r ∈ Rooms h1 ->
       r ∈ rooms h1 /\ String.prefix (name (base h) +:+ ":") r = true.
Proof.
  intros Hjoin h1.
  destruct (Join_rooms h room s Hjoin) as [Hrooms Hbase]. fold h1 in Hrooms, Hbase.
  split.
  - unfold Rooms. apply list_elem_of_filter. split.
    + rewrite Hbase. apply broadcastName_prefix.
    + apply elem_of_elements. rewrite Hrooms.
      apply elem_of_union_l. by apply elem_of_singleton.
  - intros r Hr. unfold Rooms in Hr. rewrite Hbase in Hr.
    apply list_elem_of_filter in Hr as [Hp Hr].
    split; [by apply elem_of_elements in Hr|exact Hp].
Qed.

Lemma Join_listed_witness :
  "/chat:a" ∈ Rooms (fst (fst (Join (handler chat_view) "a" (fresh conn_up)))).
Proof.
  exact (proj1 (Join_listed (handler chat_view) "a" (fresh conn_up) eq_refl)).
Defined.

(** A member that the adaptor refuses to release stays a member: [Leave]
    returns the adaptor's error, the handler is as it was after the [Join],
    and [Rooms] still lists the room. *)
Theorem Leave_refused_keeps_member (h : socketHandler) (room : string) (s : socket)
    (err : error) :
  let roomName := broadcastName (base h) room in
  adaptor_Join (broadcast (base h)) (log s) roomName = None ->
  adaptor_Leave (broadcast (base h)) (log s ++ [EvJoin roomName]) roomName = Some err ->
  let h1 := fst (fst (Join h room s)) in
  let s1 := snd (fst (Join h room s)) in
  snd (Leave h1 room s1) = Some err
  /\ fst (fst (Leave h1 room s1)) = h1
  /\ roomName ∈ Rooms (fst (fst (Leave h1 room s1))).
Proof.
  intros roomName Hjoin Hleave h1 s1.
  assert (E1 : Join h room s
               = (set_rooms ({[roomName]} ∪ rooms h) h, emit (EvJoin roomName) s, None)).
  { unfold Join. fold roomName. by rewrite Hjoin. }
  subst h1 s1. rewrite E1. cbn [fst snd].
  unfold Leave. cbn [base set_rooms rooms]. fold roomName.
  rewrite log_emit, Hleave. cbn [fst snd]. repeat split.
  unfold Rooms. cbn [base set_rooms rooms]. apply list_elem_of_filter. split.
  - apply broadcastName_prefix.
  - apply elem_of_elements, elem_of_union_l. by apply elem_of_singleton.
Qed.

Lemma Leave_refused_keeps_member_witness :
  snd (Leave (fst (fst (Join lobby_handler "a" (fresh conn_up)))) "a"
         (snd (fst (Join lobby_handler "a" (fresh conn_up))))) = Some errAdaptor
  /\ fst (fst (Leave (fst (fst (Join lobby_handler "a" (fresh conn_up)))) "a"
                 (snd (fst (Join lobby_handler "a" (fresh conn_up))))))
     = fst (fst (Join lobby_handler "a" (fresh conn_up)))
  /\ "/lobby:a" ∈ Rooms (fst (fst (Leave (fst (fst (Join lobby_handler "a"
                                                      (fresh conn_up)))) "a"
                         (snd (fst (Join lobby_handler "a" (fresh conn_up))))))).
Proof.
  exact (Leave_refused_keeps_member lobby_handler "a" (fresh conn_up) errAdaptor
           eq_refl eq_refl).
Defined.

(** [LeaveAll] stops at the first member the adaptor refuses: when it returns
    nil the adaptor was asked once for every member, in order; when it
    returns an error, that is the adaptor's answer for the last member
    asked, and the members after it were not asked. *)
Theorem LeaveAll_stops_on_first_error (h : socketHandler) (s : socket) :
  let ask := fun member => EvLeave (broadcastName (base h) member) in
  match snd (LeaveAll h s) with
  | None => log (fst (LeaveAll h s)) = log s ++ map ask (elements (rooms h))
  | Some err =>
      exists before member after,
        elements (rooms h) = before ++ member :: after
        /\ log (fst (LeaveAll h s)) = log s ++ map ask (before ++ [member])
        /\ adaptor_Leave (broadcast (base h)) (log s ++ map ask before)
             (broadcastName (base h) member) = Some err
  end.
Proof.
  intros ask. unfold LeaveAll.
  generalize (elements (rooms h)) as ms. intros ms. revert s.
  induction ms as [|m ms IH]; intros s; cbn.
  - by rewrite app_nil_r.
  - destruct (adaptor_Leave (broadcast (base h)) (log s) (broadcastName (base h) m))
      as [err|] eqn:E.
    + cbn. exists [], m, ms. cbn. by rewrite app_nil_r.
    + specialize (IH (emit (EvLeave (broadcastName (base h) m)) s)).
      destruct (snd (leave_each (base h) ms _)) as [err|].
      * destruct IH as (before & member & after & Hms & Hlog & Herr).
        exists (m :: before), member, after. split; [by rewrite Hms|]. split.
        -- rewrite Hlog. cbn. by rewrite <- app_assoc.
        -- rewrite <- Herr. cbn. by rewrite <- app_assoc.
      * rewrite IH. cbn. by rewrite <- app_assoc.
Qed.

(** ** Emission: [Emit], [nspEmit], [sendId], [send], [Disconnect] *)

Lemma onAck_found h i d p s c args :
  acks s !! i = Some c ->
  DecodeData d (GetArgs c) = inr args ->
  onAck h i (Some d) p s
  = (emit (EvCall c args) (emit (EvDecodeData (GetArgs c))
                             (set_acks (delete i (acks s)) s)),
     Returns None).
Proof. intros Hc Hd. unfold onAck. by rewrite Hc, Hd. Qed.

Lemma onPacket_acktype h d p s :
  Type_ p = _ACK \/ Type_ p = _BINARY_ACK ->
  onPacket h d p s
  = (fst (onAck h (Id p) d p s),
     match snd (onAck h (Id p) d p s) with
     | Returns err => Returns (None, err)
     | Panics => Panics
     end).
Proof.
  intros Hty. unfold onPacket.
  destruct Hty as [-> | ->]; by destruct (onAck h (Id p) d p s).
Qed.

Section MoreEmission.

Variable newCaller : value -> error + caller.

(** An emission whose last argument is no function allocates no id: the
    EVENT goes out with Id -1 and the event name in front of the arguments,
    the counter and the ack table stay as they are, and what the encoder
    answers is returned. *)
Theorem nspEmit_plain (n : nspSocket) (ev : string) (args : list value) (s : socket) :
  match last args with Some fv => is_func fv | None => false end = false ->
  let pkt := {| Type_ := _EVENT; Id := -1; NSP := view_name n;
                Data := Some (VStr ev :: args) |} in
  log (fst (nspEmit newCaller n ev args s)) = log s ++ [EvEncode pkt]
  /\ snd (nspEmit newCaller n ev args s) = Encode (conn s) (log s) pkt
  /\ id (fst (nspEmit newCaller n ev args s)) = id s
  /\ acks (fst (nspEmit newCaller n ev args s)) = acks s.
Proof.
  intros Hlast pkt. unfold nspEmit, trailing_callable.
  destruct (last args) as [fv|]; [rewrite Hlast|]; done.
Qed.

(** An emission whose trailing function [newCaller] rejects returns that
    error and does nothing: no packet is encoded, no id is used up, the ack
    table is not touched. *)
Theorem Emit_rejected_callable (n : nspSocket) (ev : string) (args : list value)
    (f : nat) (err : error) (s : socket) :
  last args = Some (VFunc f) ->
  newCaller (VFunc f) = inl err ->
  Emit newCaller n ev args s = (s, Some err).
Proof.
  intros Hlast Herr. unfold Emit, nspEmit, trailing_callable.
  rewrite Hlast. cbn. by rewrite Herr.
Qed.

(** The acknowledgement round trip: after an emission with a continuation
    that the encoder accepted, the ACK that carries the id of the emitted
    packet invokes that continuation, once, on the arguments the decoder
    binds, and takes the entry out of the ack table again. *)
Theorem nspEmit_then_ack (n : nspSocket) (ev : string) (args : list value) (f : nat)
    (c : caller) (s : socket) (h : socketHandler) (d : decoder) (p : packet)
    (args' : list value) :
  last args = Some (VFunc f) ->
  newCaller (VFunc f) = inr c ->
  Encode (conn s) (log s)
    {| Type_ := _EVENT; Id := id s; NSP := view_name n;
       Data := Some (VStr ev :: removelast args) |} = None ->
  Type_ p = _ACK \/ Type_ p = _BINARY_ACK ->
  Id p = id s ->
  DecodeData d (GetArgs c) = inr args' ->
  let s1 := fst (nspEmit newCaller n ev args s) in
  acks s1 !! id s = Some c
  /\ log (fst (onPacket h (Some d) p s1))
     = log s1 ++ [EvDecodeData (GetArgs c); EvCall c args']
  /\ snd (onPacket h (Some d) p s1) = Returns (None, None)
  /\ acks (fst (onPacket h (Some d) p s1)) = delete (id s) (acks s).
Proof.
  intros Hlast Hc Henc Hty Hid Hdec s1.
  assert (Hacks : acks s1 = <[id s := c]> (acks s))
    by apply (nspEmit_encoded newCaller n ev args f c s Hlast Hc Henc).
  assert (Hlook : acks s1 !! id s = Some c) by (rewrite Hacks; apply lookup_insert_eq).
  split; [exact Hlook|].
  rewrite onPacket_acktype by done. rewrite Hid.
  rewrite (onAck_found h (id s) d p s1 c args' Hlook Hdec). cbn.
  rewrite <- app_assoc, Hacks, delete_insert_eq. done.
Qed.

(** Two emissions with continuations in a row, below the largest id and on a
    transport that accepts them, use two consecutive ids: both continuations
    are in the ack table, none has replaced the other. *)
Theorem nspEmit_twice (n : nspSocket) (ev1 ev2 : string) (args1 args2 : list value)
    (f1 f2 : nat) (c1 c2 : caller) (s : socket) :
  0 <= id s < max_int ->
  (forall l p, Encode (conn s) l p = None) ->
  last args1 = Some (VFunc f1) -> newCaller (VFunc f1) = inr c1 ->
  last args2 = Some (VFunc f2) -> newCaller (VFunc f2) = inr c2 ->
  let s1 := fst (nspEmit newCaller n ev1 args1 s) in
  let s2 := fst (nspEmit newCaller n ev2 args2 s1) in
  acks s2 = <[id s + 1 := c2]> (<[id s := c1]> (acks s))
  /\ acks s2 !! id s = Some c1
  /\ acks s2 !! (id s + 1) = Some c2
  /\ id s2 = (if decide (id s + 1 = max_int) then 0 else id s + 2).
Proof.
  intros Hid Hup Hl1 Hc1 Hl2 Hc2 s1 s2.
  assert (E1 : nspEmit newCaller n ev1 args1 s
               = (set_acks (<[id s := c1]> (acks s))
                    (emit (EvEncode {| Type_ := _EVENT; Id := id s; NSP := view_name n;
                                       Data := Some (VStr ev1 :: removelast args1) |})
                       (set_id (id s + 1) s)), None)).
  { unfold nspEmit. rewrite (trailing_callable_func _ _ _ _ Hl1 Hc1).
    unfold sendId, encode. cbn. rewrite Hup.
    rewrite (wrap_int_succ (id s)) by lia. by rewrite decide_False by lia. }
  assert (Hs1 : id s1 = id s + 1 /\ acks s1 = <[id s := c1]> (acks s)
                /\ conn s1 = conn s) by (subst s1; by rewrite E1).
  destruct Hs1 as (Hid1 & Hacks1 & Hconn1).
  assert (E2 : nspEmit newCaller n ev2 args2 s1
               = (set_acks (<[id s1 := c2]> (acks s1))
                    (emit (EvEncode {| Type_ := _EVENT; Id := id s1; NSP := view_name n;
                                       Data := Some (VStr ev2 :: removelast args2) |})
                       (set_id (if decide (id s1 = max_int) then 0 else id s1 + 1) s1)),
                  None)).
  { unfold nspEmit. rewrite (trailing_callable_func _ _ _ _ Hl2 Hc2).
    unfold sendId, encode. cbn. rewrite Hconn1, Hup.
    by rewrite (wrap_int_succ (id s1)) by lia. }
  subst s2. rewrite E2. cbn. rewrite Hid1, Hacks1. repeat split.
  - rewrite lookup_insert_ne by lia. apply lookup_insert_eq.
  - apply lookup_insert_eq.
  - repeat case_decide; lia.
Qed.

(** An emission of "disconnect", once its EVENT is encoded, closes the
    transport on the root namespace and sends a DISCONNECT packet on any
    other one, and returns nil whatever becomes of that packet; when the
    EVENT cannot be encoded, its error is returned and nothing follows. *)
Theorem Emit_disconnect (n : nspSocket) (args : list value) (s : socket) :
  match last args with Some fv => is_func fv | None => false end = false ->
  let pkt := {| Type_ := _EVENT; Id := -1; NSP := view_name n;
                Data := Some (VStr "disconnect" :: args) |} in
  let bye := {| Type_ := _DISCONNECT; Id := -1; NSP := view_name n; Data := None |} in
  match Encode (conn s) (log s) pkt with
  | Some err =>
      snd (Emit newCaller n "disconnect" args s) = Some err
      /\ log (fst (Emit newCaller n "disconnect" args s)) = log s ++ [EvEncode pkt]
  | None =>
      snd (Emit newCaller n "disconnect" args s) = None
      /\ log (fst (Emit newCaller n "disconnect" args s))
         = log s ++ [EvEncode pkt;
                     if decide (view_name n = "") then EvConnClose else EvEncode bye]
  end.
Proof.
  intros Hlast pkt bye.
  assert (E : nspEmit newCaller n "disconnect" args s
              = (emit (EvEncode pkt) s, Encode (conn s) (log s) pkt)).
  { unfold nspEmit, trailing_callable.
    destruct (last args) as [fv|]; [rewrite Hlast|]; done. }
  unfold Emit. rewrite E.
  destruct (Encode (conn s) (log s) pkt) as [err|]; [done|].
  rewrite decide_True by done. unfold Disconnect.
  case_decide; cbn; by rewrite <- app_assoc.
Qed.

End MoreEmission.

Lemma nspEmit_plain_witness :
  log (fst (nspEmit app_newCaller chat_view "news" [VInt 1] (fresh conn_up)))
  = [EvEncode {| Type_ := _EVENT; Id := -1; NSP := "/chat";
                 Data := Some [VStr "news"; VInt 1] |}].
Proof.
  exact (proj1 (nspEmit_plain app_newCaller chat_view "news" [VInt 1] (fresh conn_up)
                  eq_refl)).
Defined.

Lemma Emit_rejected_callable_witness :
  Emit app_newCaller root_view "ping" [VInt 42; VFunc 1] (fresh conn_up)
  = (fresh conn_up, Some (mkError "f is not func")).
Proof.
  exact (Emit_rejected_callable app_newCaller root_view "ping" [VInt 42; VFunc 1]
           1%nat (mkError "f is not func") (fresh conn_up) eq_refl eq_refl).
Defined.

Lemma nspEmit_then_ack_witness :
  acks (fst (onPacket (handler root_view) (Some pong_43)
               {| Type_ := _ACK; Id := 0; NSP := ""; Data := None |}
               (fst (nspEmit app_newCaller root_view "ping" [VInt 42; VFunc 0]
                       (fresh conn_up)))))
  = delete 0 (acks (fresh conn_up)).
Proof.
  exact (proj2 (proj2 (proj2
    (nspEmit_then_ack app_newCaller root_view "ping" [VInt 42; VFunc 0] 0%nat on_pong
       (fresh conn_up) (handler root_view) pong_43
       {| Type_ := _ACK; Id := 0; NSP := ""; Data := None |} [VInt 43]
       eq_refl eq_refl eq_refl (or_introl eq_refl) eq_refl eq_refl)))).
Defined.

Lemma nspEmit_twice_witness :
  acks (fst (nspEmit app_newCaller root_view "pong" [VFunc 0]
               (fst (nspEmit app_newCaller root_view "ping" [VFunc 0] (fresh conn_up)))))
    !! 0 = Some on_pong.
Proof.
  assert (Hid : 0 <= id (fresh conn_up) < max_int) by (split; [discriminate|reflexivity]).
  exact (proj1 (proj2
    (nspEmit_twice app_newCaller root_view "ping" "pong" [VFunc 0] [VFunc 0] 0%nat 0%nat
       on_pong on_pong (fresh conn_up) Hid (fun _ _ => eq_refl)
       eq_refl eq_refl eq_refl eq_refl))).
Defined.

Lemma Emit_disconnect_witness :
  snd (Emit app_newCaller chat_view "disconnect" [] (fresh conn_up)) = None
  /\ log (fst (Emit app_newCaller chat_view "disconnect" [] (fresh conn_up)))
     = [EvEncode {| Type_ := _EVENT; Id := -1; NSP := "/chat";
                    Data := Some [VStr "disconnect"] |};
        EvEncode {| Type_ := _DISCONNECT; Id := -1; NSP := "/chat"; Data := None |}].
Proof.
  exact (Emit_disconnect app_newCaller chat_view [] (fresh conn_up) eq_refl).
Defined.

(** ** Dispatch: [On], [onPacket], [onAck] *)

Lemma onPacket_bound h d p s c s1 args :
  Type_ p <> _ACK -> Type_ p <> _BINARY_ACK ->
  events (base h) !! snd (resolve_message d p s) = Some c ->
  bind_args c d (fst (resolve_message d p s)) = (s1, inr args) ->
  onPacket h d p s = (emit (EvCall c args) s1, Returns (split_return (Func c args))).
Proof.
  intros Hack Hback Hev Hbind. rewrite onPacket_named by done.
  rewrite Hev. unfold invoke. by rewrite Hbind.
Qed.

Lemma split_return_snoc vs v :
  split_return (vs ++ [v])
  = match as_error v with
    | Some err => (Some vs, Some err)
    | None => (Some (vs ++ [v]), None)
    end.
Proof.
  unfold split_return. rewrite last_snoc.
  destruct (as_error v); [|done]. by rewrite removelast_last.
Qed.

Section Registration.

Variable newCaller : value -> error + caller.

(** [On] registers what [newCaller] makes of the function, replacing what
    was registered under that name and nothing else; from then on an inbound
    EVENT of that name is dispatched to it.  When [newCaller] rejects the
    function, the table is as before. *)
Theorem On_then_dispatch (b : baseHandler) (ev : string) (f : value) :
  match newCaller f with
  | inl err => On newCaller b ev f = (b, Some err)
  | inr c =>
      snd (On newCaller b ev f) = None
      /\ events (fst (On newCaller b ev f)) !! ev = Some c
      /\ (forall ev', ev' <> ev ->
            events (fst (On newCaller b ev f)) !! ev' = events b !! ev')
      /\ forall r d p s,
            Type_ p = _EVENT \/ Type_ p = _BINARY_EVENT ->
            Message d = ev ->
            onPacket {| base := fst (On newCaller b ev f); rooms := r |} (Some d) p s
            = invoke c (Some d) (emit EvMessage s)
  end.
Proof.
  unfold On. destruct (newCaller f) as [err|c]; [done|]. cbn.
  split; [done|]. split; [apply lookup_insert_eq|].
  split; [intros ev' Hne; by apply lookup_insert_ne|].
  intros r d p s Hty Hmsg.
  rewrite onPacket_named by (destruct Hty as [-> | ->]; discriminate).
  rewrite (resolve_message_event d p s Hty). cbn.
  by rewrite Hmsg, lookup_insert_eq.
Qed.

End Registration.

(** The values a handler returns become the payload as they are, unless the
    last of them is an error: then that one is split off and returned as the
    error of the dispatch.  A handler that returns nothing gives nil, not an
    empty payload. *)
Theorem onPacket_return_convention (h : socketHandler) (d : option decoder)
    (p : packet) (s s1 : socket) (c : caller) (args : list value) :
  Type_ p <> _ACK -> Type_ p <> _BINARY_ACK ->
  events (base h) !! snd (resolve_message d p s) = Some c ->
  bind_args c d (fst (resolve_message d p s)) = (s1, inr args) ->
  (Func c args = [] -> snd (onPacket h d p s) = Returns (None, None))
  /\ (forall vs err, Func c args = vs ++ [VError err] ->
        snd (onPacket h d p s) = Returns (Some vs, Some err))
  /\ (forall vs v, Func c args = vs ++ [v] -> as_error v = None ->
        snd (onPacket h d p s) = Returns (Some (vs ++ [v]), None)).
Proof.
  intros Hack Hback Hev Hbind.
  rewrite (onPacket_bound h d p s c s1 args Hack Hback Hev Hbind). cbn.
  split; [by intros ->|]. split.
  - intros vs err ->. by rewrite split_return_snoc.
  - intros vs v -> Hv. by rewrite split_return_snoc, Hv.
Qed.

Lemma onPacket_return_convention_witness :
  snd (onPacket {| base := {| events := {[ "connection" := only_error ]};
                              name := ""; broadcast := quiet |};
                   rooms := ∅ |} None
         {| Type_ := _CONNECT; Id := -1; NSP := ""; Data := None |} (fresh conn_up))
  = Returns (Some [], Some errRefused).
Proof.
  assert (H : forall vs err, Func only_error [] = vs ++ [VError err] ->
              snd (onPacket {| base := {| events := {[ "connection" := only_error ]};
                                          name := ""; broadcast := quiet |};
                               rooms := ∅ |} None
                     {| Type_ := _CONNECT; Id := -1; NSP := ""; Data := None |}
                     (fresh conn_up))
              = Returns (Some vs, Some err)).
  { apply (onPacket_return_convention _ None
             {| Type_ := _CONNECT; Id := -1; NSP := ""; Data := None |}
             (fresh conn_up) (fresh conn_up) only_error []);
      (discriminate || reflexivity). }
  exact (H [] errRefused eq_refl).
Defined.

(** When the decoder cannot bind the payload to the slots of the handler,
    the handler is not invoked and the turn ends the loop with the decoder's
    error; nothing is encoded, whether or not the EVENT asked for an ACK. *)
Theorem step_decode_error (p : packet) (d : decoder) (s : socket) (k : string)
    (ns : nspSocket) (c : caller) (err : error) :
  Type_ p = _EVENT \/ Type_ p = _BINARY_EVENT ->
  namespace s (NSP p) = Some (k, ns) ->
  events (base (handler ns)) !! Message d = Some c ->
  Args c <> [] ->
  DecodeData d (GetArgs c) = inl err ->
  step p d s
  = (emit (EvDecodeData (GetArgs c)) (emit EvMessage s), Returns (Some err)).
Proof.
  intros Hty Hns Hev Hargs Hdec. unfold step. rewrite Hns.
  rewrite onPacket_named by (destruct Hty as [-> | ->]; discriminate).
  rewrite (resolve_message_event d p s Hty). cbn. rewrite Hev.
  unfold invoke, bind_args. rewrite Hdec, length_GetArgs.
  destruct (Args c); [done|]. reflexivity.
Qed.

Lemma step_decode_error_witness :
  step {| Type_ := _EVENT; Id := 7; NSP := ""; Data := None |} bad_payload
    (fresh conn_up)
  = (emit (EvDecodeData (GetArgs refuse)) (emit EvMessage (fresh conn_up)),
     Returns (Some errDecode)).
Proof.
  assert (Hns : namespace (fresh conn_up) "" = Some ("", root_view))
    by (vm_compute; reflexivity).
  assert (Hev : events (base (handler root_view)) !! Message bad_payload = Some refuse)
    by (vm_compute; reflexivity).
  assert (Hargs : Args refuse <> []) by discriminate.
  exact (step_decode_error {| Type_ := _EVENT; Id := 7; NSP := ""; Data := None |}
           bad_payload (fresh conn_up) "" root_view refuse errDecode
           (or_introl eq_refl) Hns Hev Hargs eq_refl).
Defined.

(** What the decoder leaves is never cut: when it leaves at least as many
    elements as the handler declares parameters, the handler is invoked on
    all of them, the surplus included. *)
Theorem onPacket_keeps_surplus (h : socketHandler) (d : decoder) (p : packet)
    (s : socket) (c : caller) (args' : list value) :
  Type_ p <> _ACK -> Type_ p <> _BINARY_ACK ->
  events (base h) !! snd (resolve_message (Some d) p s) = Some c ->
  Args c <> [] ->
  DecodeData d (GetArgs c) = inr args' ->
  (length (Args c) <= length args')%nat ->
  onPacket h (Some d) p s
  = (emit (EvCall c args')
       (emit (EvDecodeData (GetArgs c)) (fst (resolve_message (Some d) p s))),
     Returns (split_return (Func c args'))).
Proof.
  intros Hack Hback Hev Hargs Hdec Hlen.
  apply onPacket_bound; [done..|].
  unfold bind_args. rewrite Hdec, length_GetArgs.
  destruct (Args c) as [|a l] eqn:E; [done|].
  assert (Hpad : pad (length (a :: l)) args' = args').
  { unfold pad. replace (length (a :: l) - length args')%nat with 0%nat by lia.
    apply app_nil_r. }
  by rewrite Hpad.
Qed.

Lemma onPacket_keeps_surplus_witness :
  onPacket (handler root_view) (Some hello_alice_bob)
    {| Type_ := _EVENT; Id := -1; NSP := ""; Data := None |} (fresh conn_up)
  = (emit (EvCall hello [VStr "alice"; VStr "bob"])
       (emit (EvDecodeData [VStr ""]) (emit EvMessage (fresh conn_up))),
     Returns (Some [VStr "hi "], None)).
Proof.
  assert (Hev : events (base (handler root_view))
                  !! snd (resolve_message (Some hello_alice_bob)
                            {| Type_ := _EVENT; Id := -1; NSP := ""; Data := None |}
                            (fresh conn_up)) = Some hello)
    by (vm_compute; reflexivity).
  assert (Hargs : Args hello <> []) by discriminate.
  assert (Hlen : (length (Args hello) <= length [VStr "alice"; VStr "bob"])%nat)
    by (cbn; lia).
  apply (onPacket_keeps_surplus (handler root_view) hello_alice_bob
           {| Type_ := _EVENT; Id := -1; NSP := ""; Data := None |} (fresh conn_up)
           hello [VStr "alice"; VStr "bob"]);
    (discriminate || done).
Defined.

(** A handler without parameters is invoked without the decoder being asked
    for the payload, and without the decoder being closed. *)
Theorem onPacket_no_parameters (h : socketHandler) (d : decoder) (p : packet)
    (s : socket) (c : caller) :
  Type_ p <> _ACK -> Type_ p <> _BINARY_ACK ->
  events (base h) !! snd (resolve_message (Some d) p s) = Some c ->
  Args c = [] ->
  onPacket h (Some d) p s
  = (emit (EvCall c []) (fst (resolve_message (Some d) p s)),
     Returns (split_return (Func c []))).
Proof.
  intros Hack Hback Hev Hargs.
  apply onPacket_bound; [done..|].
  unfold bind_args, GetArgs. by rewrite Hargs.
Qed.

Lemma onPacket_no_parameters_witness :
  onPacket (handler root_view) (Some named_connection)
    {| Type_ := _EVENT; Id := -1; NSP := ""; Data := None |} (fresh conn_up)
  = (emit (EvCall on_connection []) (emit EvMessage (fresh conn_up)),
     Returns (None, None)).
Proof.
  assert (Hev : events (base (handler root_view))
                  !! snd (resolve_message (Some named_connection)
                            {| Type_ := _EVENT; Id := -1; NSP := ""; Data := None |}
                            (fresh conn_up)) = Some on_connection)
    by (vm_compute; reflexivity).
  apply (onPacket_no_parameters (handler root_view) named_connection
           {| Type_ := _EVENT; Id := -1; NSP := ""; Data := None |} (fresh conn_up)
           on_connection);
    (discriminate || done).
Defined.

(** An ACK is consumed by its first delivery: once an ACK with some id has
    reached its continuation, a second ACK with that id changes nothing and
    invokes nothing. *)
Theorem onPacket_ack_twice (h h' : socketHandler) (d d' : decoder) (p p' : packet)
    (s : socket) (c : caller) (args : list value) :
  Type_ p = _ACK \/ Type_ p = _BINARY_ACK ->
  Type_ p' = _ACK \/ Type_ p' = _BINARY_ACK ->
  Id p' = Id p ->
  acks s !! Id p = Some c ->
  DecodeData d (GetArgs c) = inr args ->
  let s1 := fst (onPacket h (Some d) p s) in
  calls (log s1) = S (calls (log s))
  /\ onPacket h' (Some d') p' s1 = (s1, Returns (None, None)).
Proof.
  intros Hty Hty' Hid Hc Hdec s1.
  assert (E : s1 = emit (EvCall c args) (emit (EvDecodeData (GetArgs c))
                                          (set_acks (delete (Id p) (acks s)) s))).
  { subst s1. rewrite onPacket_acktype by done.
    by rewrite (onAck_found h (Id p) d p s c args Hc Hdec). }
  split.
  - rewrite E. cbn. unfold calls.
    rewrite <- app_assoc, List.filter_app, length_app. cbn. lia.
  - rewrite onPacket_acktype by done. rewrite Hid. unfold onAck.
    assert (Hgone : acks s1 !! Id p = None) by (rewrite E; apply lookup_delete_eq).
    by rewrite Hgone.
Qed.

Lemma onPacket_ack_twice_witness :
  calls (log (fst (onPacket (handler root_view) (Some pong_43)
                     {| Type_ := _ACK; Id := 7; NSP := ""; Data := None |} awaiting_7)))
  = S (calls (log awaiting_7))
  /\ onPacket (handler root_view) (Some pong_43)
       {| Type_ := _ACK; Id := 7; NSP := ""; Data := None |}
       (fst (onPacket (handler root_view) (Some pong_43)
               {| Type_ := _ACK; Id := 7; NSP := ""; Data := None |} awaiting_7))
     = (fst (onPacket (handler root_view) (Some pong_43)
               {| Type_ := _ACK; Id := 7; NSP := ""; Data := None |} awaiting_7),
        Returns (None, None)).
Proof.
  exact (onPacket_ack_twice (handler root_view) (handler root_view) pong_43 pong_43
           {| Type_ := _ACK; Id := 7; NSP := ""; Data := None |}
           {| Type_ := _ACK; Id := 7; NSP := ""; Data := None |}
           awaiting_7 on_pong [VInt 43]
           (or_introl eq_refl) (or_introl eq_refl) eq_refl eq_refl eq_refl).
Defined.

(** ** The loop: [namespace], [loop], [newSocket] *)

Lemma same_handlers_refl m : same_handlers m m.
Proof. by intros k. Qed.


Lemma same_handlers_insert m k ns ns' :
  m !! k = Some ns -> handler ns' = handler ns ->
  same_handlers m (<[k := ns']> m).
Proof.
  intros Hk Hh k'. destruct (decide (k = k')) as [<-|Hne].
  - rewrite lookup_insert_eq, Hk. cbn. by rewrite Hh.
  - by rewrite lookup_insert_ne.
Qed.

Lemma same_handlers_root m m' :
  same_handlers m m' -> is_Some (m !! "") -> is_Some (m' !! "").
Proof.
  intros H Hroot. specialize (H "").
  apply (proj1 (fmap_is_Some handler (m' !! ""))).
  rewrite H. by apply (proj2 (fmap_is_Some handler (m !! ""))).
Qed.

Lemma namespace_lookup s nsp k ns :
  namespace s nsp = Some (k, ns) -> nsps s !! k = Some ns.
Proof.
  unfold namespace. destruct (nsps s !! nsp) as [n|] eqn:E.
  - intros [= <- <-]. exact E.
  - destruct (nsps s !! "") as [n|] eqn:E0; [|done]. intros [= <- <-]. exact E0.
Qed.

Lemma namespace_root s nsp : is_Some (nsps s !! "") -> is_Some (namespace s nsp).
Proof.
  intros [r Hr]. unfold namespace. rewrite Hr.
  by destruct (nsps s !! nsp).
Qed.

Lemma step_same_handlers p d s : same_handlers (nsps s) (nsps (fst (step p d s))).
Proof.
  unfold step. destruct (namespace s (NSP p)) as [[k ns]|] eqn:Hns;
    [|apply same_handlers_refl].
  apply namespace_lookup in Hns.
  pose proof (onPacket_nsps (handler ns) (Some d) p s) as Hon.
  destruct (onPacket (handler ns) (Some d) p s) as [s1 [[ret [err|]]|]]; cbn in Hon;
    try (cbn; rewrite Hon; apply same_handlers_refl).
  destruct (Type_ p); cbn; try (rewrite Hon; apply same_handlers_refl).
  - rewrite Hon. by apply (same_handlers_insert _ _ ns).
  - pose proof (LeaveAll_nsps (handler ns) s1) as Hl.
    destruct (LeaveAll (handler ns) s1) as [s2 e]. cbn in *. rewrite Hl, Hon.
    by apply (same_handlers_insert _ _ ns).
  - destruct (0 <=? Id p); cbn; rewrite Hon; apply same_handlers_refl.
  - destruct (0 <=? Id p); cbn; rewrite Hon; apply same_handlers_refl.
Qed.





Lemma onPacket_decoder_returns h d p s :
  exists r, snd (onPacket h (Some d) p s) = Returns r.
Proof.
  assert (Hcases : (Type_ p = _ACK \/ Type_ p = _BINARY_ACK)
                   \/ (Type_ p <> _ACK /\ Type_ p <> _BINARY_ACK)).
  { destruct (Type_ p); try (right; split; discriminate); left; auto. }
  destruct Hcases as [Hty|[Hack Hback]].
  - rewrite onPacket_acktype by done. unfold onAck.
    destruct (acks s !! Id p); [|by eexists].
    destruct (DecodeData d _); by eexists.
  - rewrite onPacket_named by done.
    destruct (events (base h) !! _) as [c|]; [|by eexists].
    unfold invoke. destruct (bind_args c (Some d) _) as [s1 [err|args]]; by eexists.
Qed.

Lemma step_returns p d s :
  is_Some (nsps s !! "") -> exists r, snd (step p d s) = Returns r.
Proof.
  intros Hroot. unfold step.
  destruct (namespace_root s (NSP p) Hroot) as [[k ns] ->].
  destruct (onPacket_decoder_returns (handler ns) d p s) as [[ret err] Hr].
  destruct (onPacket (handler ns) (Some d) p s) as [s1 r]. cbn in Hr. subst r.
  destruct err; [by eexists|].
  destruct (Type_ p); cbn; try by eexists.
  - destruct (LeaveAll _ _). by eexists.
  - destruct (0 <=? Id p); by eexists.
  - destruct (0 <=? Id p); by eexists.
Qed.

Lemma read_loop_returns frames s :
  is_Some (nsps s !! "") -> exists err, snd (read_loop frames s) = Returns err.
Proof.
  revert s. induction frames as [|[p d] frames IH]; intros s Hroot; cbn; [by eexists|].
  destruct (step_returns p d s Hroot) as [r Hr].
  pose proof (step_same_handlers p d s) as Hs.
  destruct (step p d s) as [s1 r1]. cbn in Hr, Hs. subst r1.
  destruct r as [err|]; [by eexists|].
  apply IH. by eapply same_handlers_root.
Qed.

(** On a connection that has a view of the root namespace, [loop] never
    dereferences a nil view or a nil decoder, whatever the peer sends: it
    returns, with an error. *)
Theorem loop_returns_error (frames : list (packet * decoder)) (s : socket) :
  is_Some (nsps s !! "") ->
  exists err, snd (loop frames s) = Returns err.
Proof.
  intros Hroot.
  assert (Hbody : exists err, snd (loop_body frames s) = Returns err).
  { unfold loop_body. cbv zeta.
    destruct (encode {| Type_ := _CONNECT; Id := -1; NSP := ""; Data := None |} s)
      as [s1 e] eqn:Eenc.
    assert (H1 : nsps s1 = nsps s) by (unfold encode in Eenc; by injection Eenc as <- _).
    destruct e as [err|]; [by eexists|].
    assert (Hroot1 : is_Some (nsps s1 !! "")) by (by rewrite H1).
    destruct (namespace_root s1 "" Hroot1) as [[k ns] ->].
    rewrite onPacket_nil by discriminate.
    destruct (events _ !! _); apply read_loop_returns; exact Hroot1. }
  destruct Hbody as [err Herr]. exists err. unfold loop.
  destruct (loop_body frames s) as [s1 r]. cbn in Herr. subst r.
  destruct (cleanup_spec s1) as [Hr _].
  destruct (cleanup s1) as [s2 r2]. cbn in *. by subst r2.
Qed.

Lemma loop_returns_error_witness :
  exists err, snd (loop [({| Type_ := _EVENT; Id := 7; NSP := "/nope"; Data := None |},
                          hello_alice)] (fresh conn_up)) = Returns err.
Proof.
  assert (Hroot : is_Some (nsps (fresh conn_up) !! ""))
    by (exists root_view; vm_compute; reflexivity).
  exact (loop_returns_error _ (fresh conn_up) Hroot).
Defined.

(** Without a view of the root namespace [loop] panics as soon as its first
    CONNECT packet is encoded: it dispatches that packet through the root
    view, which is nil. *)
Theorem loop_without_root_panics (frames : list (packet * decoder)) (s : socket) :
  nsps s !! "" = None ->
  Encode (conn s) (log s) {| Type_ := _CONNECT; Id := -1; NSP := ""; Data := None |}
    = None ->
  snd (loop frames s) = Panics.
Proof.
  intros Hroot Henc. unfold loop.
  assert (Hbody : snd (loop_body frames s) = Panics).
  { unfold loop_body, encode. rewrite Henc. unfold namespace. cbn. by rewrite Hroot. }
  destruct (loop_body frames s) as [s1 r]. cbn in Hbody. subst r.
  by destruct (cleanup s1) as [s2 [[]|]].
Qed.

Lemma loop_without_root_panics_witness :
  snd (loop [] (newSocket conn_up {[ "/chat" := chat_base ]})) = Panics.
Proof.
  assert (Hroot : nsps (newSocket conn_up {[ "/chat" := chat_base ]}) !! "" = None)
    by (vm_compute; reflexivity).
  exact (loop_without_root_panics [] _ Hroot eq_refl).
Defined.

(** When the first CONNECT packet cannot be encoded, [loop] returns that
    error without dispatching anything and without reading from the peer. *)
Theorem loop_first_encode_fails (frames : list (packet * decoder)) (s : socket)
    (err : error) :
  Encode (conn s) (log s) {| Type_ := _CONNECT; Id := -1; NSP := ""; Data := None |}
    = Some err ->
  snd (loop frames s) = Returns err
  /\ loop frames s = loop [] s
  /\ loop_body frames s
     = (emit (EvEncode {| Type_ := _CONNECT; Id := -1; NSP := ""; Data := None |}) s,
        Returns err).
Proof.
  intros Henc.
  assert (Hbody : forall fs, loop_body fs s
            = (emit (EvEncode {| Type_ := _CONNECT; Id := -1; NSP := "";
                                 Data := None |}) s, Returns err)).
  { intros fs. unfold loop_body, encode. by rewrite Henc. }
  unfold loop. rewrite !Hbody. repeat split.
  destruct (cleanup_spec (emit (EvEncode {| Type_ := _CONNECT; Id := -1; NSP := "";
                                            Data := None |}) s)) as [Hr _].
  destruct (cleanup _) as [s2 r2]. cbn in *. by subst r2.
Qed.

Lemma loop_first_encode_fails_witness :
  snd (loop [({| Type_ := _EVENT; Id := 7; NSP := ""; Data := None |}, hello_alice)]
         (fresh conn_down)) = Returns errWrite.
Proof.
  exact (proj1 (loop_first_encode_fails _ (fresh conn_down) errWrite eq_refl)).
Defined.

(** A fresh connection has a view for every namespace of the server and for
    nothing else; each view starts with no room and both flags down.  The
    lookup of a namespace that is not registered answers the root view. *)
Theorem newSocket_namespace (c : Conn) (root : gmap string baseHandler)
    (b0 : baseHandler) (nsp : string) :
  root !! "" = Some b0 ->
  namespace (newSocket c root) nsp
  = Some (match root !! nsp with
          | Some b => (nsp, {| handler := {| base := b; rooms := ∅ |};
                               connected := false; disconnected := false |})
          | None => ("", {| handler := {| base := b0; rooms := ∅ |};
                            connected := false; disconnected := false |})
          end).
Proof.
  intros Hroot. unfold namespace, newSocket. cbn.
  rewrite !lookup_fmap, Hroot. by destruct (root !! nsp).
Qed.

Lemma newSocket_namespace_witness :
  namespace (newSocket conn_up {[ "" := root_base; "/chat" := chat_base ]}) "/nope"
  = Some ("", root_view).
Proof.
  assert (Hroot : ({[ "" := root_base; "/chat" := chat_base ]} : gmap string baseHandler)
                    !! "" = Some root_base) by (vm_compute; reflexivity).
  assert (Hnope : ({[ "" := root_base; "/chat" := chat_base ]} : gmap string baseHandler)
                    !! "/nope" = None) by (vm_compute; reflexivity).
  pose proof (newSocket_namespace conn_up _ root_base "/nope" Hroot) as H.
  rewrite Hnope in H. exact H.
Defined.

(** ** The loop: CONNECT, DISCONNECT and teardown *)

Lemma lookup_store k ns s : nsps (store k ns s) !! k = Some ns.
Proof. unfold store. cbn. apply lookup_insert_eq. Qed.

(** A CONNECT from the peer, once dispatched without error, is answered by a
    CONNECT packet on the namespace of the view that [namespace] selected,
    and that view is marked connected; the turn goes round again whatever the
    encoder answers for the reply. *)
Theorem step_connect (p : packet) (d : decoder) (s : socket) (k : string)
    (ns : nspSocket) (ret : option (list value)) :
  Type_ p = _CONNECT ->
  namespace s (NSP p) = Some (k, ns) ->
  snd (onPacket (handler ns) (Some d) p s) = Returns (ret, None) ->
  let s1 := fst (onPacket (handler ns) (Some d) p s) in
  snd (step p d s) = Returns None
  /\ nsps (fst (step p d s)) !! k = Some (set_connected true ns)
  /\ log (fst (step p d s))
     = log s1 ++ [EvEncode {| Type_ := _CONNECT; Id := -1; NSP := view_name ns;
                              Data := None |}].
Proof.
  intros Hty Hns Hon s1. subst s1. unfold step. rewrite Hns.
  destruct (onPacket (handler ns) (Some d) p s) as [s1 r]. cbn in Hon. subst r.
  rewrite Hty. cbn. repeat split. apply lookup_insert_eq.
Qed.

(** A CONNECT for a namespace the server does not know is answered on the
    root namespace. *)
Lemma step_connect_witness :
  snd (step {| Type_ := _CONNECT; Id := -1; NSP := "/nope"; Data := None |} xyzzy
         (fresh conn_down)) = Returns None
  /\ nsps (fst (step {| Type_ := _CONNECT; Id := -1; NSP := "/nope"; Data := None |}
                  xyzzy (fresh conn_down))) !! "" = Some (set_connected true root_view)
  /\ log (fst (step {| Type_ := _CONNECT; Id := -1; NSP := "/nope"; Data := None |}
                 xyzzy (fresh conn_down)))
     = [EvCall on_connection [];
        EvEncode {| Type_ := _CONNECT; Id := -1; NSP := ""; Data := None |}].
Proof.
  assert (Hns : namespace (fresh conn_down) "/nope" = Some ("", root_view))
    by (vm_compute; reflexivity).
  assert (Hon : snd (onPacket (handler root_view) (Some xyzzy)
                       {| Type_ := _CONNECT; Id := -1; NSP := "/nope"; Data := None |}
                       (fresh conn_down)) = Returns (None, None))
    by (vm_compute; reflexivity).
  exact (step_connect {| Type_ := _CONNECT; Id := -1; NSP := "/nope"; Data := None |}
           xyzzy (fresh conn_down) "" root_view None eq_refl Hns Hon).
Defined.

(** A DISCONNECT from the peer, once dispatched without error, makes the
    view leave its rooms and marks it disconnected; the teardown at the end
    of the loop then passes over that view: no second [LeaveAll], no second
    dispatch of "disconnection". *)
Theorem step_disconnect (p : packet) (d : decoder) (s : socket) (k : string)
    (ns : nspSocket) (ret : option (list value)) :
  Type_ p = _DISCONNECT ->
  namespace s (NSP p) = Some (k, ns) ->
  snd (onPacket (handler ns) (Some d) p s) = Returns (ret, None) ->
  let s1 := fst (onPacket (handler ns) (Some d) p s) in
  snd (step p d s) = Returns None
  /\ nsps (fst (step p d s)) !! k = Some (set_disconnected true ns)
  /\ log (fst (step p d s)) = log (fst (LeaveAll (handler ns) s1))
  /\ cleanup_view k (fst (step p d s)) = (fst (step p d s), Returns tt).
Proof.
  intros Hty Hns Hon s1. subst s1. unfold step. rewrite Hns.
  destruct (onPacket (handler ns) (Some d) p s) as [s1 r]. cbn in Hon. subst r.
  rewrite Hty. cbn [fst snd].
  destruct (LeaveAll (handler ns) s1) as [s2 e]. cbn [fst snd].
  split; [done|]. split; [apply lookup_store|]. split; [done|].
  unfold cleanup_view. by rewrite lookup_store.
Qed.

Lemma step_disconnect_witness :
  nsps (fst (step {| Type_ := _DISCONNECT; Id := -1; NSP := "/chat"; Data := None |}
               xyzzy joined_ab)) !! "/chat"
  = Some (set_disconnected true (set_handler chat_handler_ab chat_view)).
Proof.
  assert (Hns : namespace joined_ab "/chat"
                = Some ("/chat", set_handler chat_handler_ab chat_view))
    by (vm_compute; reflexivity).
  assert (Hon : snd (onPacket (handler (set_handler chat_handler_ab chat_view))
                       (Some xyzzy)
                       {| Type_ := _DISCONNECT; Id := -1; NSP := "/chat"; Data := None |}
                       joined_ab) = Returns (None, None))
    by (vm_compute; reflexivity).
  exact (proj1 (proj2
    (step_disconnect {| Type_ := _DISCONNECT; Id := -1; NSP := "/chat"; Data := None |}
       xyzzy joined_ab "/chat" _ None eq_refl Hns Hon))).
Defined.

Lemma cleanup_each_done ks s :
  (forall k v, nsps s !! k = Some v -> disconnected v = true) ->
  cleanup_each ks s = (s, Returns tt).
Proof.
  intros Hall. induction ks as [|k ks IH]; cbn; [done|].
  assert (Hview : cleanup_view k s = (s, Returns tt)).
  { unfold cleanup_view. destruct (nsps s !! k) as [v|] eqn:E; [|done].
    by rewrite (Hall k v E). }
  by rewrite Hview.
Qed.

(** The teardown is idempotent: run once more on what it left, it calls
    neither the adaptor nor a handler and changes nothing. *)
Theorem cleanup_idempotent (s : socket) :
  cleanup (fst (cleanup s)) = (fst (cleanup s), Returns tt).
Proof.
  unfold cleanup at 1. apply cleanup_each_done.
  intros k v Hk. destruct (cleanup_spec s) as [_ Hn]. by destruct (Hn k v Hk).
Qed.

Lemma bind_args_set_nsps c d m s :
  bind_args c d (set_nsps m s)
  = (set_nsps m (fst (bind_args c d s)), snd (bind_args c d s)).
Proof.
  unfold bind_args. destruct d as [dec|]; [|reflexivity].
  by destruct (0 <? length (GetArgs c))%nat.
Qed.

Lemma invoke_set_nsps c d m s :
  invoke c d (set_nsps m s) = (set_nsps m (fst (invoke c d s)), snd (invoke c d s)).
Proof.
  unfold invoke. rewrite bind_args_set_nsps.
  by destruct (bind_args c d s) as [s1 [err|args]].
Qed.

Lemma resolve_message_set_nsps d p m s :
  resolve_message d p (set_nsps m s)
  = (set_nsps m (fst (resolve_message d p s)), snd (resolve_message d p s)).
Proof. unfold resolve_message. by destruct (Type_ p), d. Qed.

Lemma onAck_set_nsps h i d p m s :
  onAck h i d p (set_nsps m s)
  = (set_nsps m (fst (onAck h i d p s)), snd (onAck h i d p s)).
Proof.
  unfold onAck. cbn [acks set_nsps].
  destruct (acks s !! i) as [c|]; [|reflexivity].
  destruct d as [dec|]; [|reflexivity].
  by destruct (DecodeData dec (GetArgs c)).
Qed.

Lemma onPacket_set_nsps h d p m s :
  onPacket h d p (set_nsps m s)
  = (set_nsps m (fst (onPacket h d p s)), snd (onPacket h d p s)).
Proof.
  unfold onPacket.
  destruct (Type_ p);
    try (rewrite onAck_set_nsps; by destruct (onAck h (Id p) d p s) as [s1 [r|]]);
    rewrite resolve_message_set_nsps;
    destruct (resolve_message d p s) as [s0 message]; cbn [fst snd];
    (destruct (events (base h) !! message) as [c|];
     [apply invoke_set_nsps|by destruct d]).
Qed.

Lemma namespace_store s nsp k ns ns' :
  namespace s nsp = Some (k, ns) ->
  namespace (store k ns' s) nsp = Some (k, ns').
Proof.
  unfold namespace, store. cbn.
  destruct (nsps s !! nsp) as [n|] eqn:E.
  - intros [= <- <-]. by rewrite lookup_insert_eq.
  - destruct (nsps s !! "") as [n|] eqn:E0; [|done]. intros [= <- <-].
    rewrite lookup_insert_ne by (intros <-; congruence).
    by rewrite E, lookup_insert_eq.
Qed.

(** The dispatch does not look at the [disconnected] flag: an EVENT for a
    view that is marked disconnected reaches the handler and is acknowledged
    exactly as for a view that is not. *)
Theorem step_ignores_disconnected (p : packet) (d : decoder) (s : socket)
    (k : string) (ns : nspSocket) :
  Type_ p = _EVENT \/ Type_ p = _BINARY_EVENT ->
  namespace s (NSP p) = Some (k, ns) ->
  log (fst (step p d (store k (set_disconnected true ns) s))) = log (fst (step p d s))
  /\ snd (step p d (store k (set_disconnected true ns) s)) = snd (step p d s).
Proof.
  intros Hty Hns. unfold step.
  rewrite (namespace_store s (NSP p) k ns _ Hns), Hns.
  unfold store. rewrite onPacket_set_nsps. cbn [handler set_disconnected].
  destruct (onPacket (handler ns) (Some d) p s) as [s1 [[ret [err|]]|]]; cbn [fst snd];
    try done.
  destruct Hty as [-> | ->]; destruct (0 <=? Id p); done.
Qed.

Lemma step_ignores_disconnected_witness :
  log (fst (step {| Type_ := _EVENT; Id := 7; NSP := ""; Data := None |} hello_alice
              (store "" (set_disconnected true root_view) (fresh conn_up))))
  = log (fst (step {| Type_ := _EVENT; Id := 7; NSP := ""; Data := None |} hello_alice
                (fresh conn_up))).
Proof.
  assert (Hns : namespace (fresh conn_up) "" = Some ("", root_view))
    by (vm_compute; reflexivity).
  exact (proj1 (step_ignores_disconnected
                  {| Type_ := _EVENT; Id := 7; NSP := ""; Data := None |} hello_alice
                  (fresh conn_up) "" root_view (or_introl eq_refl) Hns)).
Defined.
